(** * Hyperliquid HIP3 node: the [execute] pipeline

    A shallow embedding of [HyperliquidHip3.execute] (the n8n node that
    builds, signs and dispatches Hyperliquid exchange actions and info
    queries) together with the ECMAScript built-ins it calls
    ([parseInt], [parseFloat], [String], [JSON.stringify], [||], [!]).

    - JavaScript strings are [string]s read as UTF-8 byte sequences.
    - JavaScript Numbers are IEEE-754 binary64 values, [spec_float] at
      precision 53 and maximal exponent 1024, rounded to nearest-even.
    - The network, the clock and the node settings form an environment;
      the effects of [execute] are threaded through a state-and-error
      monad.
    - [ethers] (key derivation, keccak256, ECDSA signing) is an interface. *)

From Stdlib Require Import ZArith List String Ascii Bool Lia.
From Stdlib Require Import Strings.Byte.
From Stdlib Require Import Floats.SpecFloat.
From Stdlib Require Import DecimalString.
Import ListNotations.

Local Open Scope string_scope.
Local Open Scope Z_scope.

(* ===================================================================== *)
(** ** JavaScript Numbers *)
(* ===================================================================== *)

Module Number.

Definition number := spec_float.

Definition prec : Z := 53.
Definition emax : Z := 1024.

Definition NaN : number := S754_nan.
Definition zero : number := S754_zero false.

(** The Number value for a mathematical integer. *)
Definition of_Z (n : Z) : number := binary_normalize prec emax n 0 false.

(** The Number value for [m * 10^e10] with [m > 0]: exact integer
    arithmetic, then one rounding. *)
Definition of_decimal_pos (m : positive) (e10 : Z) : number :=
  match e10 with
  | Zneg k =>
      SFdiv prec emax (S754_finite false m 0)
                      (S754_finite false (Pos.pow 10 k) 0)
  | _ => binary_normalize prec emax (Zpos m * 10 ^ e10) 0 false
  end.

(** The Number value for [(-1)^neg * m * 10^e10], [m >= 0]; a zero
    keeps its sign. *)
Definition of_decimal (neg : bool) (m : Z) (e10 : Z) : number :=
  match m with
  | Zpos p => (if neg then SFopp else fun x => x) (of_decimal_pos p e10)
  | _ => S754_zero neg
  end.

(** [x * y] *)
Definition mul (x y : number) : number := SFmul prec emax x y.

Definition is_finite (x : number) : bool :=
  match x with
  | S754_zero _ | S754_finite _ _ _ => true
  | _ => false
  end.

(** The exact value of a finite number as a fraction [(num, den)]. *)
Definition to_fraction (m : positive) (e : Z) : Z * Z :=
  match e with
  | Zneg k => (Zpos m, Zpos (Pos.pow 2 k))
  | _ => (Zpos m * 2 ^ e, 1)
  end.

(** The exact integer value of a number, when it has one. *)
Definition to_Z (x : number) : option Z :=
  match x with
  | S754_zero _ => Some 0
  | S754_finite s m e =>
      let '(n, d) := to_fraction m e in
      if (n mod d =? 0) then Some (cond_Zopp s (n / d)) else None
  | _ => None
  end.

(** *** Decimal digits *)

Definition digit_char (d : Z) : ascii :=
  ascii_of_nat (48 + Z.to_nat d).

Fixpoint digits_fuel (fuel : nat) (n : Z) (acc : string) : string :=
  match fuel with
  | O => acc
  | S fuel' =>
      let acc' := String (digit_char (n mod 10)) acc in
      if n / 10 =? 0 then acc' else digits_fuel fuel' (n / 10) acc'
  end.

(** The decimal representation of [n >= 0], most significant digit
    first, without leading zeros. *)
Definition digits (n : Z) : string :=
  digits_fuel (S (Z.to_nat (Z.log2 n))) n "".

Fixpoint zeros (n : nat) : string :=
  match n with
  | O => ""
  | S n' => String "0" (zeros n')
  end.

(** *** [Number::toString] (radix 10) *)

(** The [n] with [10^(n-1) <= num/den < 10^n]. *)
Fixpoint magnitude_up (fuel : nat) (q : Z) (n : Z) : Z :=
  match fuel with
  | O => n
  | S fuel' => if q =? 0 then n else magnitude_up fuel' (q / 10) (n + 1)
  end.

Fixpoint magnitude_down (fuel : nat) (num den : Z) (n : Z) : Z :=
  match fuel with
  | O => n
  | S fuel' =>
      if den <=? num * 10 then n
      else magnitude_down fuel' (num * 10) den (n - 1)
  end.

Definition magnitude (num den : Z) : Z :=
  if den <=? num
  then magnitude_up (S (Z.to_nat (Z.log2 (num / den)))) (num / den) 0
  else magnitude_down (Z.to_nat (Z.log2 den) + 1) num den 0.

(** [num/den * 10^p] as a fraction. *)
Definition scale10 (num den p : Z) : Z * Z :=
  match p with
  | Zneg k => (num, den * Zpos (Pos.pow 10 k))
  | _ => (num * 10 ^ p, den)
  end.

(** For a number of digits [k], the integer [s] with
    [10^(k-1) <= s <= 10^k] for which [s * 10^(n0-k)] is closest to
    [x = num/den] among those whose Number value is [x]. *)
Definition shortest_at (x : number) (num den n0 : Z) (k : Z) : option Z :=
  let '(a, b) := scale10 num den (k - n0) in
  let lo := a / b in
  let ok s := match s with
              | Zpos p => SFeqb (of_decimal_pos p (n0 - k)) x
              | _ => false
              end in
  match ok lo, ok (lo + 1) with
  | true, true =>
      (* distance to lo is (a - lo*b)/b, to lo+1 is ((lo+1)*b - a)/b *)
      match (2 * (a - lo * b)) ?= b with
      | Lt => Some lo
      | Gt => Some (lo + 1)
      | Eq => Some (if Z.even lo then lo else lo + 1)
      end
  | true, false => Some lo
  | false, true => Some (lo + 1)
  | false, false => None
  end.

Fixpoint shortest_from (fuel : nat) (x : number) (num den n0 : Z) (k : Z)
  : Z * Z :=
  match fuel with
  | O => (k, fst (scale10 num den (k - n0)) / snd (scale10 num den (k - n0)))
  | S fuel' =>
      match shortest_at x num den n0 k with
      | Some s => (k, s)
      | None => shortest_from fuel' x num den n0 (k + 1)
      end
  end.

(** The triple [(n, k, s)] of [Number::toString] for the positive
    finite number [m * 2^e]: [k] is as small as possible. *)
Definition shortest (m : positive) (e : Z) : Z * Z * Z :=
  let '(num, den) := to_fraction m e in
  let n0 := magnitude num den in
  let '(k, s) := shortest_from 17 (S754_finite false m e) num den n0 1 in
  if s =? 10 ^ k then (n0 + 1, k, 10 ^ (k - 1)) else (n0, k, s).

Definition exponent_suffix (n : Z) : string :=
  String "e" (String (if n - 1 <? 0 then "-"%char else "+"%char)
                     (digits (Z.abs (n - 1)))).

Definition toString_pos (m : positive) (e : Z) : string :=
  let '(n, k, s) := shortest m e in
  let ds := digits s in
  if (k <=? n) && (n <=? 21) then
    ds ++ zeros (Z.to_nat (n - k))
  else if (0 <? n) && (n <=? 21) then
    substring 0 (Z.to_nat n) ds ++ "."
      ++ substring (Z.to_nat n) (Z.to_nat (k - n)) ds
  else if (-6 <? n) && (n <=? 0) then
    "0." ++ zeros (Z.to_nat (- n)) ++ ds
  else if k =? 1 then
    ds ++ exponent_suffix n
  else
    substring 0 1 ds ++ "." ++ substring 1 (Z.to_nat (k - 1)) ds
      ++ exponent_suffix n.

Definition toString (x : number) : string :=
  match x with
  | S754_nan => "NaN"
  | S754_zero _ => "0"
  | S754_infinity s => if s then "-Infinity" else "Infinity"
  | S754_finite s m e =>
      (if s then "-" else "") ++ toString_pos m e
  end.

End Number.

(* ===================================================================== *)
(** ** JavaScript strings and the global functions [parseInt], [parseFloat] *)
(* ===================================================================== *)

Module JsString.

Import Number.

Definition code (c : ascii) : Z := Z.of_N (N_of_ascii c).

(** [String.prototype.includes(searchString)] *)
Fixpoint includes (searchString s : string) : bool :=
  prefix searchString s
  || match s with
     | EmptyString => false
     | String _ s' => includes searchString s'
     end.

(** [String.prototype.slice(start, end)] for [0 <= start], [0 <= end]. *)
Definition slice (start end_ : nat) (s : string) : string :=
  substring start (end_ - start) s.

(** *** White space ([StrWhiteSpaceChar]), in UTF-8 *)

(** U+0009..U+000D and U+0020. *)
Definition ws1 (a : Z) : bool :=
  ((9 <=? a) && (a <=? 13)) || (a =? 32).

(** U+00A0 is [C2 A0]. *)
Definition ws2 (a b : Z) : bool :=
  (a =? 194) && (b =? 160).

(** U+1680 [E1 9A 80]; U+2000..U+200A [E2 80 80..8A]; U+2028, U+2029,
    U+202F [E2 80 A8, A9, AF]; U+205F [E2 81 9F]; U+3000 [E3 80 80];
    U+FEFF [EF BB BF]. *)
Definition ws3 (a b c : Z) : bool :=
  ((a =? 225) && (b =? 154) && (c =? 128))
  || ((a =? 226) && (b =? 128)
      && (((128 <=? c) && (c <=? 138)) || (c =? 168) || (c =? 169)
          || (c =? 175)))
  || ((a =? 226) && (b =? 129) && (c =? 159))
  || ((a =? 227) && (b =? 128) && (c =? 128))
  || ((a =? 239) && (b =? 187) && (c =? 191)).

(** [TrimString(s, start)] *)
Fixpoint trim_start (s : string) : string :=
  match s with
  | EmptyString => s
  | String a s1 =>
      if ws1 (code a) then trim_start s1
      else
        match s1 with
        | EmptyString => s
        | String b s2 =>
            if ws2 (code a) (code b) then trim_start s2
            else
              match s2 with
              | EmptyString => s
              | String c s3 =>
                  if ws3 (code a) (code b) (code c) then trim_start s3
                  else s
              end
        end
  end.

(** *** Digits *)

(** The value of a digit character in radixes up to 36. *)
Definition digit_value (c : ascii) : option Z :=
  let a := code c in
  if (48 <=? a) && (a <=? 57) then Some (a - 48)
  else if (97 <=? a) && (a <=? 122) then Some (a - 87)
  else if (65 <=? a) && (a <=? 90) then Some (a - 55)
  else None.

(** The longest prefix of radix-[R] digits: its value, its length and
    what follows it. *)
Fixpoint take_digits (R : Z) (s : string) (acc : Z) (len : Z)
  : Z * Z * string :=
  match s with
  | EmptyString => (acc, len, s)
  | String c s' =>
      match digit_value c with
      | Some d =>
          if d <? R then take_digits R s' (acc * R + d) (len + 1)
          else (acc, len, s)
      | None => (acc, len, s)
      end
  end.

(** A leading sign: [true] for "-". *)
Definition take_sign (s : string) : bool * string :=
  match s with
  | String "-" s' => (true, s')
  | String "+" s' => (false, s')
  | _ => (false, s)
  end.

(** *** [parseInt(string, radix)]; [radix = 0] stands for an absent
    radix. The result is [None] when no digit can be read (the call
    returns NaN) and otherwise the sign and the mathematical integer
    of the digits. *)
Definition parseInt_math (string_ : string) (radix : Z)
  : option (bool * Z) :=
  let trimmed := trim_start string_ in
  let '(sign, str0) := take_sign trimmed in
  if negb (radix =? 0) && ((radix <? 2) || (36 <? radix)) then None
  else
    let stripPrefix := (radix =? 0) || (radix =? 16) in
    let '(R, str1) :=
      match stripPrefix, str0 with
      | true, String "0" (String "x" rest) => (16, rest)
      | true, String "0" (String "X" rest) => (16, rest)
      | _, _ => (if radix =? 0 then 10 else radix, str0)
      end in
    let '(mathInt, len, _) := take_digits R str1 0 0 in
    if len =? 0 then None else Some (sign, mathInt).

Definition parseInt (string_ : string) (radix : Z) : number :=
  match parseInt_math string_ radix with
  | None => NaN
  | Some (sign, mathInt) => of_decimal sign mathInt 0
  end.

(** *** [parseFloat(string)] *)

(** [ExponentPart]: the exponent and what follows, when at least one
    digit follows the indicator and its sign. *)
Definition take_exponent (s : string) : Z * string :=
  match s with
  | String c s1 =>
      if (code c =? 101) || (code c =? 69) then
        let '(neg, s2) := take_sign s1 in
        let '(e, len, s3) := take_digits 10 s2 0 0 in
        if len =? 0 then (0, s) else (if neg then - e else e, s3)
      else (0, s)
  | EmptyString => (0, s)
  end.

(** The value of the longest prefix that is a [StrDecimalLiteral]. *)
Definition parseFloat (string_ : string) : number :=
  let trimmed := trim_start string_ in
  let '(sign, s) := take_sign trimmed in
  if prefix "Infinity" s then S754_infinity sign
  else
    let '(ip, ilen, s1) := take_digits 10 s 0 0 in
    let '(m, flen, s2) :=
      match s1 with
      | String "." s1' =>
          let '(m, flen, s2) := take_digits 10 s1' ip 0 in
          if (ilen =? 0) && (flen =? 0) then (ip, 0, s1) else (m, flen, s2)
      | _ => (ip, 0, s1)
      end in
    if (ilen =? 0) && (flen =? 0) then NaN
    else
      let '(e, _) := take_exponent s2 in
      of_decimal sign m (e - flen).

End JsString.

(* ===================================================================== *)
(** ** JavaScript values *)
(* ===================================================================== *)

Module Js.

Import Number JsString.

(** The values that occur: JSON values and [undefined]. An object is
    the list of its own properties in creation order. *)
#[warnings="-register-all"] Inductive jsval : Type :=
| JUndefined
| JNull
| JBool (b : bool)
| JNum (x : number)
| JStr (s : string)
| JArr (elements : list jsval)
| JObj (properties : list (string * jsval)).

(** [ToBoolean] *)
Definition ToBoolean (v : jsval) : bool :=
  match v with
  | JUndefined | JNull => false
  | JBool b => b
  | JNum (S754_zero _) | JNum S754_nan => false
  | JNum _ => true
  | JStr s => negb (s =? "")%string
  | JArr _ | JObj _ => true
  end.

(** [a || b] *)
Definition or (a b : jsval) : jsval := if ToBoolean a then a else b.

Fixpoint lookup (k : string) (l : list (string * jsval)) : option jsval :=
  match l with
  | [] => None
  | (k', v) :: l' => if (k =? k')%string then Some v else lookup k l'
  end.

Definition has_own (k : string) (l : list (string * jsval)) : bool :=
  match lookup k l with Some _ => true | None => false end.

(** [ToString]; [None] when the conversion throws a TypeError. An
    array is joined with commas; a plain object answers
    [Object.prototype.toString] unless an own property [toString]
    shadows it, in which case no method yields a primitive. *)
Fixpoint ToString (v : jsval) : option string :=
  match v with
  | JUndefined => Some "undefined"
  | JNull => Some "null"
  | JBool b => Some (if b then "true" else "false")
  | JNum x => Some (Number.toString x)
  | JStr s => Some s
  | JArr l =>
      (fix join (l : list jsval) (first : bool) : option string :=
         match l with
         | [] => Some ""
         | e :: l' =>
             match (match e with
                    | JUndefined | JNull => Some ""
                    | _ => ToString e
                    end), join l' false with
             | Some s, Some r => Some ((if first then "" else ",") ++ s ++ r)
             | _, _ => None
             end
         end) l true
  | JObj l => if has_own "toString" l then None else Some "[object Object]"
  end.

Definition hex_digit (d : Z) : ascii :=
  if d <? 10 then ascii_of_nat (48 + Z.to_nat d)
  else ascii_of_nat (87 + Z.to_nat d).

(** [QuoteJSONString] *)
Fixpoint quote_chars (s : string) : string :=
  match s with
  | EmptyString => ""
  | String c s' =>
      let a := code c in
      (if a =? 8 then "\b"
       else if a =? 9 then "\t"
       else if a =? 10 then "\n"
       else if a =? 12 then "\f"
       else if a =? 13 then "\r"
       else if a =? 34 then String "\" (String c "")
       else if a =? 92 then "\\"
       else if a <? 32 then
         "\u00" ++ String (hex_digit (a / 16))
                          (String (hex_digit (a mod 16)) "")
       else String c "")
      ++ quote_chars s'
  end.

Definition dquote : string := String (ascii_of_nat 34) "".

Definition QuoteJSONString (s : string) : string :=
  dquote ++ quote_chars s ++ dquote.

(** [SerializeJSONProperty]: [None] is [undefined]. A property whose
    value is [undefined] is left out of its object; an [undefined]
    array element and a Number that is not finite are written [null]. *)
Fixpoint SerializeJSONProperty (v : jsval) : option string :=
  match v with
  | JUndefined => None
  | JNull => Some "null"
  | JBool b => Some (if b then "true" else "false")
  | JNum x => Some (if is_finite x then Number.toString x else "null")
  | JStr s => Some (QuoteJSONString s)
  | JArr l =>
      Some ("[" ++ String.concat ","
              ((fix elements (l : list jsval) : list string :=
                  match l with
                  | [] => []
                  | e :: l' =>
                      match SerializeJSONProperty e with
                      | Some s => s
                      | None => "null"
                      end :: elements l'
                  end) l) ++ "]")
  | JObj l =>
      Some ("{" ++ String.concat ","
              ((fix members (l : list (string * jsval)) : list string :=
                  match l with
                  | [] => []
                  | (k, e) :: l' =>
                      match SerializeJSONProperty e with
                      | Some s => (QuoteJSONString k ++ ":" ++ s) :: members l'
                      | None => members l'
                      end
                  end) l) ++ "}")
  end.

(** [JSON.stringify(value)] *)
Definition JSON_stringify (v : jsval) : option string :=
  SerializeJSONProperty v.

End Js.

Import Number JsString Js.

(* ===================================================================== *)
(** ** Errors, requests and the collaborators *)
(* ===================================================================== *)

(** What can be thrown: the node's own [NodeOperationError], a
    [TypeError] of the language, the error of a failed HTTP request and
    the errors of [ethers]. *)
Inductive Error : Type :=
| NodeOperationError (msg : string)
| TypeError (msg : string)
| RequestError (msg : string)
| EthersError (msg : string).

(** [error.message] *)
Definition message (e : Error) : string :=
  match e with
  | NodeOperationError m | TypeError m | RequestError m | EthersError m => m
  end.

(** The options passed to [this.helpers.request]. *)
Record Request : Type := {
  method : string;
  url : string;
  body : jsval;
  json_flag : bool
}.

(** The part of [ethers] that [execute] calls. [Wallet_address k] is the
    [address] of [new ethers.Wallet(k)], or the message of the error the
    constructor throws; [signMessage k] is the [signMessage] of that
    wallet. *)
Class Ethers : Type := {
  Wallet_address : string -> string + string;
  keccak256 : list byte -> string;
  arrayify : string -> list byte;
  signMessage : string -> list byte -> string
}.

(** [ethers.utils.toUtf8Bytes] *)
Definition toUtf8Bytes (s : string) : list byte := list_byte_of_string s.

(** The world around one run: the clock ([clock k] is what the [k]-th
    call of [Date.now()] returns, in milliseconds), the remote API (its
    answer to a request, given the requests sent before: the parsed
    response, or the message of the error the helper throws) and the
    node setting read by [this.continueOnFail()]. *)
Record Env : Type := {
  clock : nat -> Z;
  respond : list Request -> Request -> string + jsval;
  continueOnFail : bool
}.

(** What a run changes: how often the clock was read and the requests
    sent, oldest first. *)
Record World : Type := {
  ticks : nat;
  sent : list Request
}.

Definition initial : World := {| ticks := 0; sent := [] |}.

(** ** The monad of [execute]: state and exceptions *)

Definition M (A : Type) : Type := World -> (Error + A) * World.

Definition ret {A} (x : A) : M A := fun w => (inr x, w).

Definition throw {A} (e : Error) : M A := fun w => (inl e, w).

Definition bind {A B} (c : M A) (k : A -> M B) : M B :=
  fun w =>
    match c w with
    | (inr x, w') => k x w'
    | (inl e, w') => (inl e, w')
    end.

(** [try { c } catch (error) { h error }] *)
Definition try_catch {A} (c : M A) (h : Error -> M A) : M A :=
  fun w =>
    match c w with
    | (inr x, w') => (inr x, w')
    | (inl e, w') => h e w'
    end.

Definition lift {A} (r : Error + A) : M A :=
  match r with
  | inl e => throw e
  | inr x => ret x
  end.

Declare Scope js_scope.
Delimit Scope js_scope with js.
Notation "x <- c ;; k" := (bind c (fun x => k))
  (at level 100, c at next level, right associativity) : js_scope.
Local Open Scope js_scope.

(** ** Inputs *)

(** The credential [hyperliquidApi]. The two optional addresses are
    [None] when absent ([undefined]); their default is the empty
    string. *)
Record Credentials : Type := {
  privateKey : string;
  walletAddress : option string;
  network : string;
  vaultAddress : option string
}.

(** The node parameters of one input item, as [getNodeParameter(name, i)]
    returns them. *)
Record Params : Type := {
  asset : string;
  side : string;
  size : string;
  orderType : string;
  price : string;
  reduceOnly : bool;
  orderId : string;
  coin : string;
  userAddress : string
}.

(** One element of the output: [{json, pairedItem: {item}}]. *)
Record INodeExecutionData : Type := {
  json : jsval;
  pairedItem : nat
}.

Definition of_option (o : option string) : jsval :=
  match o with
  | Some s => JStr s
  | None => JUndefined
  end.

(** [o[k]] for a key [k] that names no built-in property (every key
    used below contains a colon). *)
Definition Get (o : jsval) (k : string) : Error + jsval :=
  match o with
  | JUndefined =>
      inl (TypeError ("Cannot read properties of undefined (reading '"
                        ++ k ++ "')"))
  | JNull =>
      inl (TypeError ("Cannot read properties of null (reading '"
                        ++ k ++ "')"))
  | JObj l =>
      inr match lookup k l with
          | Some v => v
          | None => JUndefined
          end
  | _ => inr JUndefined
  end.

(** The literals [1.05] and [0.95]. *)
Definition lit_1_05 : number := of_decimal false 105 (-2).
Definition lit_0_95 : number := of_decimal false 95 (-2).

(* ===================================================================== *)
(** ** [HyperliquidHip3.execute] *)
(* ===================================================================== *)

Section Execute.

Context {E : Ethers}.
Variable env : Env.

(** [Date.now()] *)
Definition Date_now : M number :=
  fun w => (inr (of_Z (clock env (ticks w))),
            {| ticks := S (ticks w); sent := sent w |}).

(** [new NodeOperationError(this.getNode(), message)]. The constructor
    of n8n's execution errors stamps the new error with [Date.now()]:
    one reading of the clock. Of the error object the model keeps the
    class and the message, which is all that [execute] reads of it. *)
Definition new_NodeOperationError (msg : string) : M Error :=
  timestamp <- Date_now ;;
  ret (NodeOperationError msg).

(** [await this.helpers.request(options)] *)
Definition helpers_request (r : Request) : M jsval :=
  fun w => (match respond env (sent w) r with
            | inl m => inl (RequestError m)
            | inr response => inr response
            end,
            {| ticks := ticks w; sent := (sent w ++ [r])%list |}).

(** [POST {baseUrl}/info] with the given body. *)
Definition info_request (baseUrl : string) (b : jsval) : Request :=
  {| method := "POST"; url := baseUrl ++ "/info"; body := b;
     json_flag := true |}.

(** The object that is serialised, hashed and signed. *)
Definition signed_message (vaultAddress : jsval) (action : jsval)
           (timestamp : number) : jsval :=
  JObj [("action", action);
        ("nonce", JNum timestamp);
        ("vaultAddress", or vaultAddress JUndefined)].

(** [{r, s, v}] cut out of the 132 characters of the signature. *)
Definition signature_parts (signature : string) : jsval :=
  JObj [("r", JStr (slice 0 66 signature));
        ("s", JStr ("0x" ++ slice 66 130 signature));
        ("v", JNum (parseInt (slice 130 132 signature) 16))].

(** The body posted to [/exchange]. *)
Definition exchange_body (vaultAddress : jsval) (action : jsval)
           (timestamp : number) (signature : string) : jsval :=
  JObj [("action", action);
        ("nonce", JNum timestamp);
        ("signature", signature_parts signature);
        ("vaultAddress", or vaultAddress JUndefined)].

(** The signing step: the hash of the serialised message and the
    signature of that hash. [JSON.stringify] answers [undefined] only
    for a value that is not an object; [toUtf8Bytes] rejects it. *)
Definition sign (privateKey : string) (vaultAddress : jsval)
           (action : jsval) (timestamp : number)
  : Error + (string * string) :=
  match JSON_stringify (signed_message vaultAddress action timestamp) with
  | None => inl (EthersError "invalid string value")
  | Some text =>
      let hash := keccak256 (toUtf8Bytes text) in
      inr (hash, signMessage privateKey (arrayify hash))
  end.

(** "Create signature" and the request to [/exchange]: the block that
    ends each of the three signed operations. *)
Definition sign_and_send (baseUrl privateKey : string)
           (vaultAddress : jsval) (action : jsval) (timestamp : number)
  : M jsval :=
  hs <- lift (sign privateKey vaultAddress action timestamp) ;;
  helpers_request
    {| method := "POST"; url := baseUrl ++ "/exchange";
       body := exchange_body vaultAddress action timestamp (snd hs);
       json_flag := true |}.

(** The price of a market order, from the answer to [allMids]. *)
Definition market_limitPx (baseUrl : string) (p : Params) : M string :=
  marketInfo <- helpers_request
                  (info_request baseUrl (JObj [("type", JStr "allMids")])) ;;
  midPrice <- lift (Get marketInfo (asset p)) ;;
  if negb (ToBoolean midPrice) then
    error <- new_NodeOperationError
               ("Could not find mid price for " ++ asset p) ;;
    throw error
  else
    match ToString midPrice with
    | None => throw (TypeError "Cannot convert object to primitive value")
    | Some text =>
        ret (if (side p =? "B")%string
             then Number.toString (mul (parseFloat text) lit_1_05)
             else Number.toString (mul (parseFloat text) lit_0_95))
    end.

Definition order_of (p : Params) (limitPx : string) : jsval :=
  JObj [("a", JNum (of_Z 0));
        ("b", JBool (side p =? "B")%string);
        ("p", JStr limitPx);
        ("s", JStr (size p));
        ("r", JBool (reduceOnly p));
        ("t", JObj [("limit",
                     JObj [("tif", JStr (if (orderType p =? "market")%string
                                         then "Ioc" else "Gtc"))])]);
        ("c", JStr (asset p))].

Definition order_action (order : jsval) : jsval :=
  JObj [("type", JStr "order");
        ("orders", JArr [order]);
        ("grouping", JStr "na")].

Definition cancel_action (p : Params) : jsval :=
  JObj [("type", JStr "cancel");
        ("cancels", JArr [JObj [("a", JNum (of_Z 0));
                                ("o", JNum (parseInt (orderId p) 0));
                                ("c", JStr (coin p))]])].

Definition cancelAll_action (p : Params) : jsval :=
  JObj [("type", JStr "cancelByCloid");
        ("cancels", JArr [JObj [("asset", JStr (asset p));
                                ("cloid", JNull)]])].

Definition placeOrder (baseUrl privateKey : string) (vaultAddress : jsval)
           (p : Params) : M jsval :=
  if negb (includes ":" (asset p)) then
    error <- new_NodeOperationError
               "HIP3 asset must be in format dex_name:ASSET (e.g., xyz:XYZ100)" ;;
    throw error
  else
    limitPx <- (if (orderType p =? "limit")%string then
                  if (price p =? "")%string then
                    error <- new_NodeOperationError
                               "Price is required for limit orders" ;;
                    throw error
                  else ret (price p)
                else market_limitPx baseUrl p) ;;
    let order := order_of p limitPx in
    timestamp <- Date_now ;;
    let action := order_action order in
    sign_and_send baseUrl privateKey vaultAddress action timestamp.

Definition cancelOrder (baseUrl privateKey : string) (vaultAddress : jsval)
           (p : Params) : M jsval :=
  timestamp <- Date_now ;;
  let action := cancel_action p in
  sign_and_send baseUrl privateKey vaultAddress action timestamp.

Definition cancelAllOrders (baseUrl privateKey : string)
           (vaultAddress : jsval) (p : Params) : M jsval :=
  timestamp <- Date_now ;;
  let action := cancelAll_action p in
  sign_and_send baseUrl privateKey vaultAddress action timestamp.

(** The body of the [try] block for one item: the value of
    [responseData]. *)
Definition run_operation (operation baseUrl privateKey : string)
           (vaultAddress address : jsval) (p : Params) : M jsval :=
  if (operation =? "placeOrder")%string then
    placeOrder baseUrl privateKey vaultAddress p
  else if (operation =? "cancelOrder")%string then
    cancelOrder baseUrl privateKey vaultAddress p
  else if (operation =? "cancelAllOrders")%string then
    cancelAllOrders baseUrl privateKey vaultAddress p
  else if (operation =? "getOpenOrders")%string then
    helpers_request
      (info_request baseUrl (JObj [("type", JStr "openOrders");
                                   ("user", address)]))
  else if (operation =? "getPositions")%string then
    helpers_request
      (info_request baseUrl (JObj [("type", JStr "clearinghouseState");
                                   ("user", address)]))
  else if (operation =? "getAccountSummary")%string then
    helpers_request
      (info_request baseUrl (JObj [("type", JStr "clearinghouseState");
                                   ("user", address)]))
  else if (operation =? "getMarketInfo")%string then
    helpers_request
      (info_request baseUrl (JObj [("type", JStr "perpDexs")]))
  else if (operation =? "getOrderBook")%string then
    helpers_request
      (info_request baseUrl (JObj [("type", JStr "l2Book");
                                   ("coin", JStr (asset p))]))
  else if (operation =? "getUserFills")%string then
    let userAddr := if (userAddress p =? "")%string then address
                    else JStr (userAddress p) in
    helpers_request
      (info_request baseUrl (JObj [("type", JStr "userFills");
                                   ("user", userAddr)]))
  else ret JUndefined.

Definition error_entry (i : nat) (error : Error) : INodeExecutionData :=
  {| json := JObj [("error", JStr (message error))]; pairedItem := i |}.

(** The [for] loop from index [i] on, over the items that remain. *)
Fixpoint loop (operation baseUrl privateKey : string)
         (vaultAddress address : jsval) (i : nat) (items : list Params)
         (returnData : list INodeExecutionData)
  : M (list INodeExecutionData) :=
  match items with
  | [] => ret returnData
  | p :: rest =>
      returnData' <-
        try_catch
          (responseData <- run_operation operation baseUrl privateKey
                                         vaultAddress address p ;;
           ret (returnData
                  ++ [{| json := responseData; pairedItem := i |}])%list)
          (fun error =>
             if continueOnFail env then
               ret (returnData ++ [error_entry i error])%list
             else throw error) ;;
      loop operation baseUrl privateKey vaultAddress address (S i) rest
           returnData'
  end.

Definition baseUrl_of (network : string) : string :=
  if (network =? "testnet")%string
  then "https://api.hyperliquid-testnet.xyz"
  else "https://api.hyperliquid.xyz".

(** [vaultAddress || credentials.walletAddress || wallet.address] *)
Definition effective_address (credentials : Credentials)
           (wallet_address : string) : jsval :=
  or (or (of_option (vaultAddress credentials))
         (of_option (walletAddress credentials)))
     (JStr wallet_address).

Definition execute (operation : string) (credentials : Credentials)
           (items : list Params) : M (list (list INodeExecutionData)) :=
  let privateKey := privateKey credentials in
  let network := network credentials in
  let vaultAddress := of_option (vaultAddress credentials) in
  let baseUrl := baseUrl_of network in
  wallet_address <- match Wallet_address privateKey with
                    | inl m => throw (EthersError m)
                    | inr a => ret a
                    end ;;
  let address := effective_address credentials wallet_address in
  returnData <- loop operation baseUrl privateKey vaultAddress address
                     0 items [] ;;
  ret [returnData].

End Execute.

(* ===================================================================== *)
(** ** The vocabulary of the statements *)
(* ===================================================================== *)

(** An own property of an object. *)
Definition field (k : string) (v : jsval) : option jsval :=
  match v with
  | JObj l => lookup k l
  | _ => None
  end.

(** The three properties that are signed, and their serialisations. *)
Definition triple (v : jsval) : option jsval * option jsval * option jsval :=
  (field "action" v, field "nonce" v, field "vaultAddress" v).

Definition text_of (o : option jsval) : option string :=
  match o with
  | Some v => JSON_stringify v
  | None => None
  end.

Definition triple_text (v : jsval)
  : option string * option string * option string :=
  (text_of (field "action" v), text_of (field "nonce" v),
   text_of (field "vaultAddress" v)).

Definition asset_error : Error :=
  NodeOperationError
    "HIP3 asset must be in format dex_name:ASSET (e.g., xyz:XYZ100)".

Definition price_error : Error :=
  NodeOperationError "Price is required for limit orders".

(** The errors of the two checks of user input. *)
Definition is_validation_error (e : Error) : Prop :=
  e = asset_error \/ e = price_error.

Section Shape.

Context {E : Ethers}.
Variable env : Env.

(** The text that is hashed. *)
Definition message_text (va action : jsval) (ts : number) : string :=
  match JSON_stringify (signed_message va action ts) with
  | Some text => text
  | None => EmptyString
  end.

Definition hash_of (va action : jsval) (ts : number) : string :=
  keccak256 (toUtf8Bytes (message_text va action ts)).

Definition signature_of (key : string) (va action : jsval) (ts : number)
  : string :=
  signMessage key (arrayify (hash_of va action ts)).

Definition exchange_request (baseUrl key : string) (va action : jsval)
           (ts : number) : Request :=
  {| method := "POST"; url := baseUrl ++ "/exchange";
     body := exchange_body va action ts (signature_of key va action ts);
     json_flag := true |}.

Definition allMids_request (baseUrl : string) : Request :=
  info_request baseUrl (JObj [("type", JStr "allMids")]).

(** The world after one reading of the clock. *)
Definition tick (w : World) : World :=
  {| ticks := S (ticks w); sent := sent w |}.

(** The world after one request. *)
Definition post (r : Request) (w : World) : World :=
  {| ticks := ticks w; sent := (sent w ++ [r])%list |}.

(** The outcome of a request sent from world [w]. *)
Definition answer (r : Request) (w : World) : Error + jsval :=
  match respond env (sent w) r with
  | inl m => inl (RequestError m)
  | inr response => inr response
  end.

(** The clock reading that becomes the nonce. *)
Definition now (w : World) : number := of_Z (clock env (ticks w)).

(** Sign [action] with the current time and post it. *)
Definition signed_run (baseUrl key : string) (va action : jsval)
           (w : World) : (Error + jsval) * World :=
  (answer (exchange_request baseUrl key va action (now w)) (tick w),
   post (exchange_request baseUrl key va action (now w)) (tick w)).

(** The price computed for a market order from the text of the mid
    price. *)
Definition market_price (p : Params) (text : string) : string :=
  if (side p =? "B")%string
  then Number.toString (mul (parseFloat text) lit_1_05)
  else Number.toString (mul (parseFloat text) lit_0_95).

(** [placeOrder], branch by branch. *)
Definition placeOrder_cases (baseUrl key : string) (va : jsval)
           (p : Params) (w : World) : (Error + jsval) * World :=
  if includes ":" (asset p) then
    if (orderType p =? "limit")%string then
      if (price p =? "")%string then (inl price_error, tick w)
      else signed_run baseUrl key va
                      (order_action (order_of p (price p))) w
    else
      let w1 := post (allMids_request baseUrl) w in
      match answer (allMids_request baseUrl) w with
      | inl e => (inl e, w1)
      | inr marketInfo =>
          match Get marketInfo (asset p) with
          | inl e => (inl e, w1)
          | inr midPrice =>
              if ToBoolean midPrice then
                match ToString midPrice with
                | None =>
                    (inl (TypeError
                            "Cannot convert object to primitive value"), w1)
                | Some text =>
                    signed_run baseUrl key va
                      (order_action (order_of p (market_price p text))) w1
                end
              else
                (inl (NodeOperationError
                        ("Could not find mid price for " ++ asset p)),
                 tick w1)
          end
      end
  else (inl asset_error, tick w).

End Shape.

(** The signed operations. *)
Definition signed_operation (operation : string) : Prop :=
  operation = "placeOrder" \/ operation = "cancelOrder"
  \/ operation = "cancelAllOrders".

(** Request [r] carries the signature of a message whose action, nonce
    and vault address it repeats, value for value and byte for byte. *)
Definition carries_what_was_signed {E : Ethers} (key : string) (va : jsval)
           (r : Request) : Prop :=
  exists (action : jsval) (ts : number) (text : string),
    let message := signed_message va action ts in
    JSON_stringify message = Some text
    /\ field "signature" (body r)
       = Some (signature_parts
                 (signMessage key (arrayify (keccak256 (toUtf8Bytes text)))))
    /\ triple (body r) = triple message
    /\ triple_text (body r) = triple_text message.

(** The body [{type: 'clearinghouseState', user}]. *)
Definition clearinghouseState (user : jsval) : jsval :=
  JObj [("type", JStr "clearinghouseState"); ("user", user)].

(** The number of colons in a string. *)
Definition colons (s : string) : nat :=
  count_occ ascii_dec (list_ascii_of_string s) ":"%char.

(** An optional credential field that is set: present and not empty. *)
Definition is_set (o : option string) (a : string) : Prop :=
  o = Some a /\ a <> "".

Definition unset (o : option string) : Prop :=
  o = None \/ o = Some "".

(** The user-scoped queries that take the effective address, with the
    [type] of their body. *)
Definition address_queries : list (string * string) :=
  [("getOpenOrders", "openOrders");
   ("getPositions", "clearinghouseState");
   ("getAccountSummary", "clearinghouseState");
   ("getUserFills", "userFills")].

(** A letter of the Latin alphabet, [A] to [Z] or [a] to [z]. *)
Definition letter (c : ascii) : bool :=
  ((65 <=? code c) && (code c <=? 90))
  || ((97 <=? code c) && (code c <=? 122)).

(** The [cancel] action, as built from the order id and the coin. *)
Definition cancel_with (o : number) (c : string) : jsval :=
  JObj [("type", JStr "cancel");
        ("cancels", JArr [JObj [("a", JNum (of_Z 0));
                                ("o", JNum o);
                                ("c", JStr c)]])].

(** The output element for item [i], given how its operation ended. *)
Definition entry (i : nat) (r : Error + jsval) : INodeExecutionData :=
  match r with
  | inl error => error_entry i error
  | inr responseData => {| json := responseData; pairedItem := i |}
  end.

Section Batch.

(** The operation on one item. *)
Variable run : Params -> World -> (Error + jsval) * World.

(** The world after every one of [items] ran, one after the other. *)
Fixpoint world_after (items : list Params) (w : World) : World :=
  match items with
  | [] => w
  | p :: rest => world_after rest (snd (run p w))
  end.

(** How item [i] ends, in the world left by the items before it. *)
Definition outcome (items : list Params) (w : World) (i : nat) (p : Params)
  : Error + jsval :=
  fst (run p (world_after (firstn i items) w)).

(** The world right after item [i]. *)
Definition world_at (items : list Params) (w : World) (i : nat) (p : Params)
  : World :=
  snd (run p (world_after (firstn i items) w)).

(** The output elements of [items], numbered from [i]. *)
Fixpoint entries (i : nat) (items : list Params) (w : World)
  : list INodeExecutionData :=
  match items with
  | [] => []
  | p :: rest => entry i (fst (run p w)) :: entries (S i) rest (snd (run p w))
  end.

(** The first item that fails: its error and the world it leaves. *)
Fixpoint first_failure (items : list Params) (w : World)
  : option (Error * World) :=
  match items with
  | [] => None
  | p :: rest =>
      match run p w with
      | (inl e, w') => Some (e, w')
      | (inr _, w') => first_failure rest w'
      end
  end.

End Batch.

(* ===================================================================== *)
(** ** A concrete setting, to run the model *)
(* ===================================================================== *)

Module Fixture.

(** A stand-in for [ethers]: every non-empty key is valid and owns the
    address [0xKEY]; the hash of a text is the text after [0x]; every
    signature is the same 65 bytes, with recovery byte [1b]. *)
Definition hex64 (c : ascii) : string :=
  let s8 := String c (String c (String c (String c
            (String c (String c (String c (String c EmptyString))))))) in
  s8 ++ s8 ++ s8 ++ s8 ++ s8 ++ s8 ++ s8 ++ s8.

Definition ethers : Ethers := {|
  Wallet_address k := if (k =? "")%string then inl "invalid private key"
                      else inr "0xKEY";
  keccak256 bs := "0x" ++ string_of_list_byte bs;
  arrayify h := list_byte_of_string h;
  signMessage k bs := "0x" ++ hex64 "a" ++ hex64 "b" ++ "1b"
|}.

Definition ok : jsval := JObj [("status", JStr "ok")].

Definition mids : jsval :=
  JObj [("xyz:XYZ100", JStr "100"); ("abc:ABC", JStr "3")].

(** An API that answers every [/info] request with [mids], and every
    other request with [ok]; the clock starts at 1730000000000 and
    advances by one millisecond per reading. *)
Definition api (isolate : bool) : Env := {|
  clock k := 1730000000000 + Z.of_nat k;
  respond _ r := if includes "/info" (url r) then inr mids else inr ok;
  continueOnFail := isolate
|}.

(** The same API, but unreachable from the [n]-th request on. *)
Definition flaky (n : nat) (isolate : bool) : Env := {|
  clock k := 1730000000000 + Z.of_nat k;
  respond h r := if (n =? List.length h)%nat then inl "socket hang up"
                 else if includes "/info" (url r) then inr mids else inr ok;
  continueOnFail := isolate
|}.

Definition main : Credentials := {|
  privateKey := "k"; walletAddress := Some ""; network := "mainnet";
  vaultAddress := Some ""
|}.

Definition vault : Credentials := {|
  privateKey := "k"; walletAddress := Some "0xWWW"; network := "testnet";
  vaultAddress := Some "0xVVV"
|}.

Definition params : Params := {|
  asset := "xyz:XYZ100"; side := "B"; size := "1.0"; orderType := "market";
  price := ""; reduceOnly := false; orderId := "42"; coin := "xyz:XYZ100";
  userAddress := ""
|}.

Definition with_asset (a : string) (p : Params) : Params := {|
  asset := a; side := side p; size := size p; orderType := orderType p;
  price := price p; reduceOnly := reduceOnly p; orderId := orderId p;
  coin := coin p; userAddress := userAddress p
|}.

Definition with_side (x : string) (p : Params) : Params := {|
  asset := asset p; side := x; size := size p; orderType := orderType p;
  price := price p; reduceOnly := reduceOnly p; orderId := orderId p;
  coin := coin p; userAddress := userAddress p
|}.

Definition with_limit (x : string) (p : Params) : Params := {|
  asset := asset p; side := side p; size := size p; orderType := "limit";
  price := x; reduceOnly := reduceOnly p; orderId := orderId p;
  coin := coin p; userAddress := userAddress p
|}.

Definition with_orderId (x : string) (p : Params) : Params := {|
  asset := asset p; side := side p; size := size p; orderType := orderType p;
  price := price p; reduceOnly := reduceOnly p; orderId := x;
  coin := coin p; userAddress := userAddress p
|}.

(** The serialised bodies of the requests sent, oldest first. *)
Definition wire (w : World) : list (string * option string) :=
  map (fun r => (url r, JSON_stringify (body r))) (sent w).

(** One invocation of the node, from the initial world. *)
Definition run (env : Env) (operation : string) (credentials : Credentials)
           (items : list Params) :=
  execute (E := ethers) env operation credentials items initial.

End Fixture.

(* ===================================================================== *)
(** ** The node description and the credential type *)
(* ===================================================================== *)

Module Description.

(** One entry of [description.properties]: its name, type, whether it is
    required, its default, the values of its options and the
    [displayOptions.show] conditions. *)
Record INodeProperties : Type := {
  displayName : string;
  name : string;
  type : string;
  required : bool;
  default : jsval;
  options : list (string * string);
  show : list (string * list string)
}.

Definition operation : INodeProperties := {|
  displayName := "Operation"; name := "operation"; type := "options";
  required := false; default := JStr "placeOrder";
  options := [("Place Order", "placeOrder");
              ("Cancel Order", "cancelOrder");
              ("Cancel All Orders", "cancelAllOrders");
              ("Get Open Orders", "getOpenOrders");
              ("Get Positions", "getPositions");
              ("Get Account Summary", "getAccountSummary");
              ("Get Market Info", "getMarketInfo");
              ("Get Order Book", "getOrderBook");
              ("Get User Fills", "getUserFills")];
  show := []
|}.

Definition asset : INodeProperties := {|
  displayName := "HIP3 Asset"; name := "asset"; type := "string";
  required := true; default := JStr ""; options := [];
  show := [("operation", ["placeOrder"; "cancelAllOrders"; "getOrderBook"])]
|}.

Definition side : INodeProperties := {|
  displayName := "Side"; name := "side"; type := "options";
  required := true; default := JStr "B";
  options := [("Buy", "B"); ("Sell", "A")];
  show := [("operation", ["placeOrder"])]
|}.

Definition size : INodeProperties := {|
  displayName := "Size"; name := "size"; type := "string";
  required := true; default := JStr ""; options := [];
  show := [("operation", ["placeOrder"])]
|}.

Definition orderType : INodeProperties := {|
  displayName := "Order Type"; name := "orderType"; type := "options";
  required := true; default := JStr "market";
  options := [("Market", "market"); ("Limit", "limit")];
  show := [("operation", ["placeOrder"])]
|}.

Definition price : INodeProperties := {|
  displayName := "Price"; name := "price"; type := "string";
  required := false; default := JStr ""; options := [];
  show := [("operation", ["placeOrder"]); ("orderType", ["limit"])]
|}.

Definition reduceOnly : INodeProperties := {|
  displayName := "Reduce Only"; name := "reduceOnly"; type := "boolean";
  required := false; default := JBool false; options := [];
  show := [("operation", ["placeOrder"])]
|}.

Definition orderId : INodeProperties := {|
  displayName := "Order ID"; name := "orderId"; type := "string";
  required := true; default := JStr ""; options := [];
  show := [("operation", ["cancelOrder"])]
|}.

Definition coin : INodeProperties := {|
  displayName := "Coin"; name := "coin"; type := "string";
  required := true; default := JStr ""; options := [];
  show := [("operation", ["cancelOrder"])]
|}.

Definition userAddress : INodeProperties := {|
  displayName := "User Address"; name := "userAddress"; type := "string";
  required := false; default := JStr ""; options := [];
  show := [("operation", ["getUserFills"])]
|}.

(** [description.properties] *)
Definition properties : list INodeProperties :=
  [operation; asset; side; size; orderType; price; reduceOnly; orderId;
   coin; userAddress].

(** The values the operation selector offers. *)
Definition operations : list string := map snd (options operation).

(** Whether the editor shows a property, given the current value of
    every parameter: each [show] condition names a parameter whose
    current value must be one of the listed values. *)
Definition displayed (current : string -> jsval) (prop : INodeProperties)
  : bool :=
  forallb (fun condition =>
             match current (fst condition) with
             | JStr v => existsb (String.eqb v) (snd condition)
             | _ => false
             end)
          (show prop).

End Description.

Module HyperliquidApi.

(** The credential type [hyperliquidApi]: the names and defaults of its
    properties. *)
Definition name : string := "hyperliquidApi".

Definition properties : list (string * jsval) :=
  [("privateKey", JStr ""); ("walletAddress", JStr "");
   ("network", JStr "mainnet"); ("vaultAddress", JStr "")].

(** The request of the credential test. *)
Record ICredentialTestRequest : Type := {
  baseURL : string;
  url : string;
  method : string;
  body : jsval
}.

(** [test.request], its [baseURL] expression evaluated on the
    credential. *)
Definition test (credentials : Credentials) : ICredentialTestRequest := {|
  baseURL := if (network credentials =? "testnet")%string
             then "https://api.hyperliquid-testnet.xyz"
             else "https://api.hyperliquid.xyz";
  url := "/info";
  method := "POST";
  body := JObj [("type", JStr "meta")]
|}.

End HyperliquidApi.

(* ===================================================================== *)
(** ** More vocabulary *)
(* ===================================================================== *)

(** The current value of a node parameter for one item. *)
Definition parameter (operation : string) (p : Params) (name : string)
  : jsval :=
  if (name =? "operation")%string then JStr operation
  else if (name =? "asset")%string then JStr (asset p)
  else if (name =? "side")%string then JStr (side p)
  else if (name =? "size")%string then JStr (size p)
  else if (name =? "orderType")%string then JStr (orderType p)
  else if (name =? "price")%string then JStr (price p)
  else if (name =? "reduceOnly")%string then JBool (reduceOnly p)
  else if (name =? "orderId")%string then JStr (orderId p)
  else if (name =? "coin")%string then JStr (coin p)
  else if (name =? "userAddress")%string then JStr (userAddress p)
  else JUndefined.

(** Two items that agree on every parameter the editor shows for the
    first. *)
Definition agree_on_displayed (operation : string) (p p' : Params) : Prop :=
  forall prop,
    In prop Description.properties ->
    Description.displayed (parameter operation p) prop = true ->
    parameter operation p (Description.name prop)
    = parameter operation p' (Description.name prop).

(** A request of the node: a JSON POST to one of the two endpoints. *)
Definition node_request (baseUrl : string) (r : Request) : Prop :=
  method r = "POST" /\ json_flag r = true
  /\ ((url r = baseUrl ++ "/info"
       /\ field "action" (body r) = None
       /\ field "signature" (body r) = None)
      \/ (url r = baseUrl ++ "/exchange"
          /\ exists signature,
               field "signature" (body r)
               = Some (signature_parts signature))).

(** The read-only operations, with the body each one posts. *)
Definition query_body (operation : string) (address : jsval) (p : Params)
  : option jsval :=
  if (operation =? "getOpenOrders")%string then
    Some (JObj [("type", JStr "openOrders"); ("user", address)])
  else if (operation =? "getPositions")%string then
    Some (JObj [("type", JStr "clearinghouseState"); ("user", address)])
  else if (operation =? "getAccountSummary")%string then
    Some (JObj [("type", JStr "clearinghouseState"); ("user", address)])
  else if (operation =? "getMarketInfo")%string then
    Some (JObj [("type", JStr "perpDexs")])
  else if (operation =? "getOrderBook")%string then
    Some (JObj [("type", JStr "l2Book"); ("coin", JStr (asset p))])
  else if (operation =? "getUserFills")%string then
    Some (JObj [("type", JStr "userFills");
                ("user", if (userAddress p =? "")%string then address
                         else JStr (userAddress p))])
  else None.

Definition is_query (operation : string) : Prop :=
  In operation ["getOpenOrders"; "getPositions"; "getAccountSummary";
                "getMarketInfo"; "getOrderBook"; "getUserFills"].

(** The output of a batch of [n] items that all answer [undefined]. *)
Definition undefined_entries (n : nat) : list INodeExecutionData :=
  map (fun i => {| json := JUndefined; pairedItem := i |}) (seq 0 n).

(** An error raised by the node itself or by the language, before or
    instead of a request. *)
Definition local_error (e : Error) : Prop :=
  match e with
  | NodeOperationError _ | TypeError _ => True
  | RequestError _ | EthersError _ => False
  end.

(** The requests among [rs] that go to [/exchange]. *)
Definition exchange_requests (baseUrl : string) (rs : list Request)
  : list Request :=
  filter (fun r => (url r =? baseUrl ++ "/exchange")%string) rs.

(** The time in force of an order object: [order.t.limit.tif]. *)
Definition tif_of (order : jsval) : option jsval :=
  match field "t" order with
  | Some t =>
      match field "limit" t with
      | Some l => field "tif" l
      | None => None
      end
  | None => None
  end.

(** The nonce of a request body. *)
Definition nonce_of (r : Request) : option jsval := field "nonce" (body r).

(** The nonces a batch of [n] signed items carries when the clock has
    been read [k] times before. *)
Definition nonces_from (env : Env) (k n : nat) : list (option jsval) :=
  map (fun i => Some (JNum (of_Z (clock env i)))) (seq k n).

(** A string of hexadecimal digits. *)
Definition is_hex (c : ascii) : bool :=
  match digit_value c with
  | Some d => d <? 16
  | None => false
  end.

Definition hex_value (c : ascii) : Z :=
  match digit_value c with
  | Some d => d
  | None => 0
  end.

(** The clock readings that the construction of an error takes:
    [new NodeOperationError] stamps the error with the time, the errors
    of the language carry no time stamp. *)
Definition stamps (e : Error) : nat :=
  match e with
  | NodeOperationError _ => 1
  | _ => 0
  end.

(** What one item may do: it appends node requests, at most two, reads
    the clock at most once, and after a local error has posted nothing
    to [/exchange] and has read the clock for nothing but the time
    stamp of the error. *)
Definition item_effects (baseUrl : string) (w : World)
           (rw : (Error + jsval) * World) : Prop :=
  exists new,
    sent (snd rw) = (sent w ++ new)%list
    /\ Forall (node_request baseUrl) new
    /\ (List.length new <= 2)%nat
    /\ (ticks w <= ticks (snd rw) <= S (ticks w))%nat
    /\ (forall e, fst rw = inl e -> local_error e ->
                  exchange_requests baseUrl new = []
                  /\ ticks (snd rw) = (ticks w + stamps e)%nat).

(** What a batch of [n] items may do. *)
Definition batch_effects (baseUrl : string) (n : nat) (w w' : World) : Prop :=
  exists new,
    sent w' = (sent w ++ new)%list
    /\ Forall (node_request baseUrl) new
    /\ (List.length new <= 2 * n)%nat
    /\ (ticks w <= ticks w' <= ticks w + n)%nat.

(** From [w] to [w'] the clock was read once per request posted to
    [/exchange], and those requests carry the readings as nonces. *)
Definition carries_clock_readings (env : Env) (baseUrl : string)
           (w w' : World) : Prop :=
  (ticks w <= ticks w')%nat
  /\ exists new,
       sent w' = (sent w ++ new)%list
       /\ map nonce_of (exchange_requests baseUrl new)
          = nonces_from env (ticks w) (ticks w' - ticks w).

(** The nonce made of the [k]-th reading of the clock. *)
Definition nonce_at (env : Env) (k : nat) : option jsval :=
  Some (JNum (of_Z (clock env k))).

(** Clock readings taken one after the other: each of [ks] is a reading
    from the [lo]-th on and before the [hi]-th, and they increase. *)
Fixpoint readings (lo hi : nat) (ks : list nat) : Prop :=
  match ks with
  | [] => (lo <= hi)%nat
  | k :: rest => (lo <= k)%nat /\ readings (S k) hi rest
  end.

(** From [w] to [w'] every request posted to [/exchange] carries as its
    nonce a reading of the clock taken in between, a later one than the
    request before it. *)
Definition nonces_follow_the_clock (env : Env) (baseUrl : string)
           (w w' : World) : Prop :=
  exists new ks,
    sent w' = (sent w ++ new)%list
    /\ readings (ticks w) (ticks w') ks
    /\ map nonce_of (exchange_requests baseUrl new) = map (nonce_at env) ks.

(** One character as [QuoteJSONString] writes it, and the reading of
    one written character back: the two-character escapes, the
    [\u00XY] escapes of the other control characters, and any other
    character as itself. *)
Definition escape (c : ascii) : string := quote_chars (String c EmptyString).

Definition unescape (s : string) : option (ascii * string) :=
  match s with
  | EmptyString => None
  | String c r =>
      if (code c =? 92) then
        match r with
        | String x r1 =>
            if code x =? 98 then Some (ascii_of_nat 8, r1)
            else if code x =? 116 then Some (ascii_of_nat 9, r1)
            else if code x =? 110 then Some (ascii_of_nat 10, r1)
            else if code x =? 102 then Some (ascii_of_nat 12, r1)
            else if code x =? 114 then Some (ascii_of_nat 13, r1)
            else if code x =? 117 then
              match r1 with
              | String _ (String _ (String h (String l r2))) =>
                  Some (ascii_of_nat
                          (Z.to_nat (16 * hex_value h + hex_value l)), r2)
              | _ => None
              end
            else Some (x, r1)
        | EmptyString => None
        end
      else Some (c, r)
  end.

(** A tail that [parseInt] cannot take for more digits: empty, or
    starting with a character that is neither a digit nor a letter. *)
Definition no_digit_ahead (u : string) : Prop :=
  match u with
  | EmptyString => True
  | String c _ => digit_value c = None
  end.

(** What the agreement of two items says about one property. *)
Ltac shown H prop X :=
  pose proof (H prop) as X;
  cbn [Description.properties In] in X;
  specialize (X ltac:(tauto));
  cbn in X.

Module Samples.

(** Two items that differ only in parameters hidden for cancelOrder. *)
Definition cancel_a : Params := {|
  asset := "xyz:XYZ100"; side := "B"; size := "1.0"; orderType := "market";
  price := ""; reduceOnly := false; orderId := "42"; coin := "xyz:XYZ100";
  userAddress := ""
|}.

Definition cancel_b : Params := {|
  asset := "other"; side := "A"; size := "7"; orderType := "limit";
  price := "3"; reduceOnly := true; orderId := "42"; coin := "xyz:XYZ100";
  userAddress := "0xUUU"
|}.

(** An API whose [allMids] answer is [mids], and that accepts every
    other request. *)
Definition quoting (mids : jsval) : Env := {|
  clock k := 1730000000000 + Z.of_nat k;
  respond _ r := if includes "/info" (url r) then inr mids
                 else inr Fixture.ok;
  continueOnFail := false
|}.

(** A clock that stands still. *)
Definition frozen (isolate : bool) : Env := {|
  clock _ := 1730000000000;
  respond _ r := inr Fixture.ok;
  continueOnFail := isolate
|}.

Definition stop_order : Params := {|
  asset := "xyz:XYZ100"; side := "B"; size := "1.0"; orderType := "stop";
  price := ""; reduceOnly := false; orderId := ""; coin := "";
  userAddress := ""
|}.


End Samples.

(* ===================================================================== *)
(** ** The built-ins on known inputs *)
(* ===================================================================== *)

Example toString_examples :
  Number.toString (of_decimal false 1 (-1)) = "0.1"
  /\ Number.toString (of_decimal false 15 (-1)) = "1.5"
  /\ Number.toString (of_decimal true 1234567 (-3)) = "-1234.567"
  /\ Number.toString (of_decimal false 123 (-8)) = "0.00000123"
  /\ Number.toString (of_decimal false 1 (-7)) = "1e-7"
  /\ Number.toString (of_decimal false 1 21) = "1e+21"
  /\ Number.toString (of_decimal false 1 23) = "1e+23"
  /\ Number.toString (of_Z 123456789012345678901) = "123456789012345680000"
  /\ Number.toString (of_Z 9007199254740993) = "9007199254740992"
  /\ Number.toString (of_decimal false 5 (-324)) = "5e-324"
  /\ Number.toString (of_decimal false 17976931348623157 292)
     = "1.7976931348623157e+308"
  /\ Number.toString (of_decimal false 2 309) = "Infinity"
  /\ Number.toString (mul (of_Z 3) lit_1_05) = "3.1500000000000004".
Proof. vm_compute. repeat split. Qed.

Example parseInt_examples :
  parseInt "42" 0 = of_Z 42
  /\ parseInt "42abc" 0 = of_Z 42
  /\ parseInt "4.2e1" 0 = of_Z 4
  /\ parseInt " -0x1A" 0 = of_Z (-26)
  /\ parseInt "1b" 16 = of_Z 27
  /\ parseInt "-0" 0 = S754_zero true
  /\ parseInt "" 0 = NaN
  /\ parseInt "abc" 0 = NaN.
Proof. vm_compute. repeat split. Qed.

Example parseFloat_examples :
  parseFloat "100" = of_Z 100
  /\ parseFloat " 3.25e2xyz" = of_Z 325
  /\ parseFloat ".5" = of_decimal false 5 (-1)
  /\ parseFloat "5." = of_Z 5
  /\ parseFloat "1e" = of_Z 1
  /\ parseFloat "-.5e-1" = of_decimal true 5 (-2)
  /\ parseFloat "-Infinityx" = S754_infinity true
  /\ parseFloat "." = NaN
  /\ parseFloat "abc" = NaN.
Proof. vm_compute. repeat split. Qed.

Example stringify_examples :
  JSON_stringify (JArr [JNum (of_Z 1); JUndefined; JNull; JBool true;
                        JNum NaN; JNum (S754_zero true)])
  = Some "[1,null,null,true,null,0]"
  /\ JSON_stringify (JObj [("vaultAddress", JUndefined)]) = Some "{}"
  /\ JSON_stringify JUndefined = None
  /\ ToString (JArr [JNum (of_Z 1); JNull; JArr [JStr "a"; JBool true];
                     JObj []])
     = Some "1,,a,true,[object Object]"
  /\ ToString (JObj [("toString", JNull)]) = None.
Proof. vm_compute. repeat split. Qed.

(* ===================================================================== *)
(** ** The shape of the signed operations *)
(* ===================================================================== *)

Section ShapeFacts.

Context {E : Ethers}.
Variable env : Env.

Lemma helpers_request_eq r w :
  helpers_request env r w = (answer env r w, post r w).
Proof. reflexivity. Qed.

Lemma message_text_eq va action ts :
  JSON_stringify (signed_message va action ts)
  = Some (message_text va action ts).
Proof. reflexivity. Qed.

Lemma sign_eq key va action ts :
  sign key va action ts
  = inr (hash_of va action ts, signature_of key va action ts).
Proof. reflexivity. Qed.

Lemma sign_and_send_eq baseUrl key va action ts w :
  sign_and_send env baseUrl key va action ts w
  = (answer env (exchange_request baseUrl key va action ts) w,
     post (exchange_request baseUrl key va action ts) w).
Proof. reflexivity. Qed.

Lemma cancelOrder_eq baseUrl key va p w :
  cancelOrder env baseUrl key va p w
  = signed_run env baseUrl key va (cancel_action p) w.
Proof. reflexivity. Qed.

Lemma cancelAllOrders_eq baseUrl key va p w :
  cancelAllOrders env baseUrl key va p w
  = signed_run env baseUrl key va (cancelAll_action p) w.
Proof. reflexivity. Qed.

Lemma placeOrder_eq baseUrl key va p w :
  placeOrder env baseUrl key va p w
  = placeOrder_cases env baseUrl key va p w.
Proof.
  unfold placeOrder, placeOrder_cases.
  destruct (includes ":" (asset p)); [ | reflexivity ].
  cbn [negb].
  destruct (orderType p =? "limit")%string.
  - destruct (price p =? "")%string; reflexivity.
  - unfold market_limitPx, bind, allMids_request, lift.
    rewrite helpers_request_eq.
    destruct (answer env _ w) as [e | marketInfo]; [ reflexivity | ].
    destruct (Get marketInfo (asset p)) as [e | midPrice];
      [ reflexivity | ].
    cbn [ret].
    destruct (ToBoolean midPrice); cbn [negb]; [ | reflexivity ].
    destruct (ToString midPrice); reflexivity.
Qed.

End ShapeFacts.

(* ===================================================================== *)
(** ** Signed operations: what is sent is what was signed *)
(* ===================================================================== *)

Lemma append_cancel_l (s a b : string) : s ++ a = s ++ b -> a = b.
Proof.
  induction s as [ | c s IH ]; simpl; intros H.
  - exact H.
  - injection H as H. exact (IH H).
Qed.

Lemma info_is_not_exchange (baseUrl : string) :
  baseUrl ++ "/info" <> baseUrl ++ "/exchange".
Proof.
  intros H. apply append_cancel_l in H. discriminate H.
Qed.

Section Signed.

Context {E : Ethers}.
Variable env : Env.

Lemma exchange_request_carries baseUrl key va action ts :
  carries_what_was_signed key va (exchange_request baseUrl key va action ts).
Proof.
  exists action, ts, (message_text va action ts).
  repeat split; reflexivity.
Qed.

(** The requests a run of [placeOrder] adds. *)
Lemma placeOrder_sent baseUrl key va p w :
  exists new,
    sent (snd (placeOrder env baseUrl key va p w)) = (sent w ++ new)%list
    /\ forall r, In r new ->
         r = allMids_request baseUrl
         \/ exists action ts, r = exchange_request baseUrl key va action ts.
Proof.
  rewrite placeOrder_eq. unfold placeOrder_cases.
  destruct (includes ":" (asset p)).
  2: { exists []. split; [ symmetry; apply app_nil_r | intros r [] ]. }
  destruct (orderType p =? "limit")%string.
  - destruct (price p =? "")%string.
    + exists []. split; [ symmetry; apply app_nil_r | intros r [] ].
    + eexists [_]. split; [ reflexivity | ].
      intros r [<- | []]. right. eauto.
  - assert (One : exists new,
               sent (post (allMids_request baseUrl) w) = (sent w ++ new)%list
               /\ forall r, In r new ->
                    r = allMids_request baseUrl
                    \/ exists action ts,
                         r = exchange_request baseUrl key va action ts).
    { eexists [_]. split; [ reflexivity | ].
      intros r [<- | []]. left. reflexivity. }
    cbv zeta.
    destruct (answer env (allMids_request baseUrl) w) as [e | marketInfo];
      [ exact One | ].
    destruct (Get marketInfo (asset p)) as [e | midPrice]; [ exact One | ].
    destruct (ToBoolean midPrice); [ | exact One ].
    destruct (ToString midPrice) as [text | ]; [ | exact One ].
    eexists [_; _]. split.
    + cbn [signed_run snd post sent tick]. rewrite <- app_assoc. reflexivity.
    + intros r [<- | [<- | []]]; [ left; reflexivity | right; eauto ].
Qed.

End Signed.

(** C1. In every signed operation (placeOrder, cancelOrder,
    cancelAllOrders) each request posted to [/exchange] carries the
    signature of a message whose [action], [nonce] and [vaultAddress]
    are the very values of the request body, and whose serialisations
    under [JSON.stringify] are the same bytes: nothing is changed
    between signing and sending. *)
Theorem signed_request_repeats_signed_message :
  forall (E : Ethers) (env : Env) (operation baseUrl key : string)
         (va address : jsval) (p : Params) (w : World),
    signed_operation operation ->
    exists new,
      sent (snd (run_operation env operation baseUrl key va address p w))
      = (sent w ++ new)%list
      /\ forall r, In r new -> url r = baseUrl ++ "/exchange" ->
           carries_what_was_signed key va r.
Proof.
  intros E env operation baseUrl key va address p w [-> | [-> | ->]].
  - change (run_operation env "placeOrder" baseUrl key va address p w)
      with (placeOrder env baseUrl key va p w).
    destruct (placeOrder_sent env baseUrl key va p w) as (new & Hsent & Hnew).
    exists new. split; [ exact Hsent | ].
    intros r Hin Hurl.
    destruct (Hnew r Hin) as [-> | (action & ts & ->)].
    + exfalso. exact (info_is_not_exchange baseUrl Hurl).
    + apply exchange_request_carries.
  - change (run_operation env "cancelOrder" baseUrl key va address p w)
      with (cancelOrder env baseUrl key va p w).
    rewrite cancelOrder_eq. eexists [_]. split; [ reflexivity | ].
    intros r [<- | []] _. apply exchange_request_carries.
  - change (run_operation env "cancelAllOrders" baseUrl key va address p w)
      with (cancelAllOrders env baseUrl key va p w).
    rewrite cancelAllOrders_eq. eexists [_]. split; [ reflexivity | ].
    intros r [<- | []] _. apply exchange_request_carries.
Qed.

Lemma signed_request_repeats_signed_message_witness :
  signed_operation "placeOrder"
  /\ exists new,
      sent (snd (run_operation (E := Fixture.ethers) (Fixture.api false)
                   "placeOrder" "https://api.hyperliquid.xyz" "k" JUndefined
                   (JStr "0xKEY") Fixture.params initial))
      = (sent initial ++ new)%list
      /\ forall r, In r new ->
           url r = "https://api.hyperliquid.xyz" ++ "/exchange" ->
           carries_what_was_signed (E := Fixture.ethers) "k" JUndefined r.
Proof.
  split.
  - left. reflexivity.
  - apply (signed_request_repeats_signed_message Fixture.ethers
             (Fixture.api false) "placeOrder" "https://api.hyperliquid.xyz"
             "k" JUndefined (JStr "0xKEY") Fixture.params initial).
    left. reflexivity.
Defined.

(* ===================================================================== *)
(** ** Queries *)
(* ===================================================================== *)

Section Queries.

Context {E : Ethers}.
Variable env : Env.


End Queries.


(* ===================================================================== *)
(** ** Integers as Numbers *)
(* ===================================================================== *)

Lemma digits2_pos_size (p : positive) : digits2_pos p = Pos.size p.
Proof. induction p; simpl; congruence. Qed.

Lemma digits2_pos_bound (m : positive) :
  Zpos m < 2 ^ 53 -> Zpos (digits2_pos m) <= 53.
Proof.
  intros H. rewrite digits2_pos_size.
  pose proof (Pos.size_le m) as L.
  destruct (Z.le_gt_cases (Zpos (Pos.size m)) 53) as [ | G ]; [ assumption | ].
  exfalso.
  assert (P : 2 ^ 54 <= 2 ^ Zpos (Pos.size m)) by (apply Z.pow_le_mono_r; lia).
  assert (Q : 2 ^ Zpos (Pos.size m) <= Zpos m~0).
  { change 2 with (Zpos 2) at 1. rewrite <- Pos2Z.inj_pow. exact L. }
  change (2 ^ 54) with 18014398509481984 in P.
  change (2 ^ 53) with 9007199254740992 in H.
  lia.
Qed.

Lemma iter_xO_value (m k : positive) :
  Zpos (Pos.iter xO m k) = Zpos m * 2 ^ Zpos k.
Proof.
  induction k as [ | k IH ] using Pos.peano_ind.
  - simpl. lia.
  - rewrite Pos.iter_succ, Pos2Z.inj_succ, Z.pow_succ_r by lia.
    rewrite Pos2Z.inj_xO, IH. lia.
Qed.

Lemma iter_xO_digits (m k : positive) :
  digits2_pos (Pos.iter xO m k) = (digits2_pos m + k)%positive.
Proof.
  induction k as [ | k IH ] using Pos.peano_ind.
  - simpl. lia.
  - rewrite Pos.iter_succ. simpl. rewrite IH. lia.
Qed.

Lemma binary_round_aux_exact (sx : bool) (mz : positive) (ez : Z) :
  Zpos (digits2_pos mz) = 53 -> -1074 <= ez <= 971 ->
  binary_round_aux prec emax sx (Zpos mz) ez loc_Exact = S754_finite sx mz ez.
Proof.
  intros D R.
  assert (F : fexp prec emax (Zdigits2 (Zpos mz) + ez) - ez = 0).
  { unfold fexp, emin, prec, emax. cbn [Zdigits2]. rewrite D. lia. }
  unfold binary_round_aux, shr_fexp.
  cbn [shr_record_of_loc]. rewrite F.
  cbn [shr shr_m shr_r shr_s loc_of_shr_record round_nearest_even
       shr_record_of_loc].
  rewrite F. cbn [shr shr_m].
  replace (ez <=? emax - prec) with true; [ reflexivity | ].
  symmetry. apply Z.leb_le. unfold emax, prec. lia.
Qed.

Lemma of_decimal_pos_exact (m : positive) :
  Zpos m < 2 ^ 53 -> to_Z (of_decimal_pos m 0) = Some (Zpos m).
Proof.
  intros H. pose proof (digits2_pos_bound m H) as D.
  unfold of_decimal_pos, binary_normalize.
  change (Zpos m * 10 ^ 0) with (Zpos (m * 1)). rewrite Pos.mul_1_r.
  unfold binary_round, shl_align.
  assert (F : fexp prec emax (Zpos (digits2_pos m) + 0)
              = Zpos (digits2_pos m) - 53).
  { unfold fexp, emin, prec, emax. lia. }
  rewrite F.
  destruct (Zpos (digits2_pos m) - 53 - 0) as [ | k | k ] eqn:K; [ | lia | ].
  - rewrite binary_round_aux_exact by lia.
    unfold to_Z, to_fraction. rewrite Z.mod_1_r, Z.div_1_r.
    cbn. f_equal. lia.
  - rewrite binary_round_aux_exact
      by (rewrite ?iter_xO_digits; lia).
    unfold to_Z, to_fraction.
    replace (Zpos (digits2_pos m) - 53) with (Zneg k) by lia.
    rewrite iter_xO_value, Pos2Z.inj_pow.
    rewrite Z.mod_mul, Z.div_mul by lia. reflexivity.
Qed.

Lemma of_decimal_exact (sign : bool) (n : Z) :
  0 <= n < 2 ^ 53 -> to_Z (of_decimal sign n 0) = Some (cond_Zopp sign n).
Proof.
  intros [L U].
  destruct n as [ | m | m ]; [ destruct sign; reflexivity | | lia ].
  unfold of_decimal. pose proof (of_decimal_pos_exact m U) as X.
  destruct (of_decimal_pos m 0) as [ | | | s' m' e' ]; destruct sign;
    try exact X; try discriminate X.
  cbn [SFopp]. revert X. unfold to_Z.
  destruct (to_fraction m' e') as [a b].
  destruct (a mod b =? 0); [ | discriminate ].
  intros X. injection X as X. f_equal. destruct s'; cbn in *; lia.
Qed.

Lemma take_digits_nonneg (R : Z) (s : string) :
  forall acc len,
    0 <= R -> 0 <= acc -> 0 <= fst (fst (take_digits R s acc len)).
Proof.
  induction s as [ | c s IH ]; intros acc len HR Hacc; cbn [take_digits].
  - exact Hacc.
  - destruct (digit_value c) as [d | ] eqn:D; [ | exact Hacc ].
    destruct (d <? R) eqn:L; [ | exact Hacc ].
    apply IH; [ exact HR | ].
    assert (0 <= d).
    { revert D. unfold digit_value.
      destruct ((48 <=? code c) && (code c <=? 57)) eqn:A;
        [ intros [= <-]; lia | ].
      destruct ((97 <=? code c) && (code c <=? 122)) eqn:B;
        [ intros [= <-]; lia | ].
      destruct ((65 <=? code c) && (code c <=? 90)) eqn:C;
        [ intros [= <-]; lia | discriminate ]. }
    nia.
Qed.

Lemma parseInt_math_nonneg (s : string) (sign : bool) (n : Z) :
  parseInt_math s 0 = Some (sign, n) -> 0 <= n.
Proof.
  unfold parseInt_math.
  destruct (take_sign (trim_start s)) as [sg s0].
  cbn [Z.eqb negb andb orb].
  set (Rs := match s0 with
             | String "0" (String "x" rest) => (16, rest)
             | String "0" (String "X" rest) => (16, rest)
             | _ => (10, s0)
             end).
  assert (HR : 0 <= fst Rs).
  { subst Rs. destruct s0 as [ | a [ | b s0 ] ]; cbn; try lia.
    - destruct a as [[] [] [] [] [] [] [] []]; cbn; lia.
    - destruct a as [[] [] [] [] [] [] [] []]; cbn; try lia;
        destruct b as [[] [] [] [] [] [] [] []]; cbn; lia. }
  destruct Rs as [R s1]. cbn [fst] in HR.
  pose proof (take_digits_nonneg R s1 0 0 HR (Z.le_refl 0)) as N.
  destruct (take_digits R s1 0 0) as [[mathInt len] rest]. cbn [fst] in N.
  destruct (len =? 0); [ discriminate | ].
  intros [= _ <-]. exact N.
Qed.

(* ===================================================================== *)
(** ** The checks of [placeOrder] *)
(* ===================================================================== *)

Lemma includes_colon (s : string) :
  includes ":" s = true <-> In ":"%char (list_ascii_of_string s).
Proof.
  induction s as [ | c s IH ]; cbn [includes prefix list_ascii_of_string In].
  - split; [ discriminate | intros [] ].
  - destruct (ascii_dec ":" c) as [<- | N].
    + split; [ intros _; left; reflexivity | intros _ ].
      destruct s; reflexivity.
    + cbn [orb]. rewrite IH. split; [ intros H; right; exact H | ].
      intros [H | H]; [ congruence | exact H ].
Qed.

Lemma one_colon_includes (s : string) :
  colons s = 1%nat -> includes ":" s = true.
Proof.
  unfold colons. intros H. apply includes_colon.
  apply (count_occ_In ascii_dec). lia.
Qed.

Lemma no_colon_includes (s : string) :
  colons s = 0%nat -> includes ":" s = false.
Proof.
  unfold colons. intros H.
  destruct (includes ":" s) eqn:I; [ | reflexivity ].
  apply includes_colon in I. apply (count_occ_In ascii_dec) in I. lia.
Qed.

Lemma answer_is_not_NodeOperationError {E : Ethers} env r w m :
  answer env r w <> inl (NodeOperationError m).
Proof.
  unfold answer. destruct (respond env (sent w) r); discriminate.
Qed.

(** C4. placeOrder checks the asset: with exactly one colon in the
    asset the check passes (the operation does not fail with the asset
    error, and a limit order with a price is built, signed and sent);
    with no colon the operation fails with the asset error, before
    anything is sent (the one reading of the clock is the time stamp
    of the new error). *)
Theorem placeOrder_checks_the_asset :
  forall (E : Ethers) (env : Env) (baseUrl key : string) (va address : jsval)
         (p : Params) (w : World),
    (colons (asset p) = 1%nat ->
       fst (run_operation env "placeOrder" baseUrl key va address p w)
       <> inl asset_error
       /\ (orderType p = "limit" -> price p <> "" ->
           run_operation env "placeOrder" baseUrl key va address p w
           = signed_run env baseUrl key va
                        (order_action (order_of p (price p))) w))
    /\ (colons (asset p) = 0%nat ->
          is_validation_error asset_error
          /\ run_operation env "placeOrder" baseUrl key va address p w
             = (inl asset_error, tick w)).
Proof.
  intros E env baseUrl key va address p w.
  change (run_operation env "placeOrder" baseUrl key va address p w)
    with (placeOrder env baseUrl key va p w).
  rewrite placeOrder_eq. unfold placeOrder_cases. split.
  - intros H. rewrite (one_colon_includes _ H). split.
    + destruct (orderType p =? "limit")%string.
      * destruct (price p =? "")%string; [ discriminate | ].
        apply answer_is_not_NodeOperationError.
      * cbv zeta.
        destruct (answer env (allMids_request baseUrl) w) as [e | marketInfo]
          eqn:A.
        { cbn [fst]. rewrite <- A. apply answer_is_not_NodeOperationError. }
        destruct (Get marketInfo (asset p)) as [e | midPrice] eqn:G.
        { cbn [fst]. destruct marketInfo; try discriminate G;
            injection G as <-; discriminate. }
        destruct (ToBoolean midPrice).
        -- destruct (ToString midPrice); [ | discriminate ].
           apply answer_is_not_NodeOperationError.
        -- cbn [fst]. discriminate.
    + intros L P. rewrite L. cbn [String.eqb Ascii.eqb Bool.eqb].
      destruct (String.eqb_spec (price p) ""); [ contradiction | reflexivity ].
  - intros H. rewrite (no_colon_includes _ H).
    split; [ left; reflexivity | reflexivity ].
Qed.

Lemma placeOrder_checks_the_asset_witness :
  (colons "xyz:XYZ100" = 1%nat
   /\ fst (run_operation (E := Fixture.ethers) (Fixture.api false)
             "placeOrder" "u" "k" JUndefined JNull
             (Fixture.with_limit "100.5" Fixture.params) initial)
      <> inl asset_error)
  /\ (colons "XYZ100" = 0%nat
      /\ run_operation (E := Fixture.ethers) (Fixture.api false)
           "placeOrder" "u" "k" JUndefined JNull
           (Fixture.with_asset "XYZ100" Fixture.params) initial
         = (inl asset_error, tick initial)).
Proof.
  split.
  - split; [ reflexivity | ].
    apply (placeOrder_checks_the_asset Fixture.ethers (Fixture.api false)
             "u" "k" JUndefined JNull
             (Fixture.with_limit "100.5" Fixture.params) initial).
    reflexivity.
  - split; [ reflexivity | ].
    apply (placeOrder_checks_the_asset Fixture.ethers (Fixture.api false)
             "u" "k" JUndefined JNull
             (Fixture.with_asset "XYZ100" Fixture.params) initial).
    reflexivity.
Defined.

(** C5. A limit placeOrder with an empty price fails with a validation
    error and sends nothing (the one reading of the clock is the time
    stamp of the new error). With a non-empty price, the order that is
    built (it is built whenever the asset passes its check) has the
    given price string as its [p], unchanged, and that order is signed
    and sent. *)
Theorem limit_order_keeps_the_price :
  forall (E : Ethers) (env : Env) (baseUrl key : string) (va address : jsval)
         (p : Params) (w : World),
    orderType p = "limit" ->
    (price p = "" ->
       exists e, is_validation_error e
         /\ run_operation env "placeOrder" baseUrl key va address p w
            = (inl e, tick w))
    /\ (price p <> "" ->
          field "p" (order_of p (price p)) = Some (JStr (price p))
          /\ text_of (field "p" (order_of p (price p)))
             = Some (QuoteJSONString (price p))
          /\ (includes ":" (asset p) = true ->
                run_operation env "placeOrder" baseUrl key va address p w
                = signed_run env baseUrl key va
                             (order_action (order_of p (price p))) w)
          /\ (includes ":" (asset p) = false ->
                run_operation env "placeOrder" baseUrl key va address p w
                = (inl asset_error, tick w))).
Proof.
  intros E env baseUrl key va address p w L.
  change (run_operation env "placeOrder" baseUrl key va address p w)
    with (placeOrder env baseUrl key va p w).
  rewrite placeOrder_eq. unfold placeOrder_cases.
  rewrite L. cbn [String.eqb Ascii.eqb Bool.eqb]. split.
  - intros P. rewrite P. cbn [String.eqb].
    destruct (includes ":" (asset p)).
    + exists price_error. split; [ right; reflexivity | reflexivity ].
    + exists asset_error. split; [ left; reflexivity | reflexivity ].
  - intros P. split; [ reflexivity | ]. split; [ reflexivity | ].
    split; intros I; rewrite I; [ | reflexivity ].
    destruct (String.eqb_spec (price p) ""); [ contradiction | reflexivity ].
Qed.

Lemma limit_order_keeps_the_price_witness :
  (exists e, is_validation_error e
     /\ run_operation (E := Fixture.ethers) (Fixture.api false)
          "placeOrder" "u" "k" JUndefined JNull
          (Fixture.with_limit "" Fixture.params) initial
        = (inl e, tick initial))
  /\ field "p" (order_of (Fixture.with_limit "100.50" Fixture.params) "100.50")
     = Some (JStr "100.50").
Proof.
  split.
  - apply (limit_order_keeps_the_price Fixture.ethers (Fixture.api false)
             "u" "k" JUndefined JNull
             (Fixture.with_limit "" Fixture.params) initial);
      reflexivity.
  - apply (limit_order_keeps_the_price Fixture.ethers (Fixture.api false)
             "u" "k" JUndefined JNull
             (Fixture.with_limit "100.50" Fixture.params) initial).
    + reflexivity.
    + discriminate.
Defined.

(* ===================================================================== *)
(** ** Market orders *)
(* ===================================================================== *)

(** C2. For a market placeOrder whose [allMids] answer holds a mid
    price [m] for the asset, the limit price is the text of the product
    of [m] (read by [parseFloat]) and 1.05 when the side is Buy ("B"),
    0.95 otherwise; the order with that price is signed and sent. For
    the mid price 100 a buy has the price 105 and a sell the price 95. *)
Theorem market_order_price :
  forall (E : Ethers) (env : Env) (baseUrl key : string) (va address : jsval)
         (p : Params) (w : World) (marketInfo midPrice : jsval) (m : string),
    includes ":" (asset p) = true ->
    orderType p <> "limit" ->
    respond env (sent w) (allMids_request baseUrl) = inr marketInfo ->
    Get marketInfo (asset p) = inr midPrice ->
    ToBoolean midPrice = true ->
    ToString midPrice = Some m ->
    let factor := if (side p =? "B")%string then lit_1_05 else lit_0_95 in
    let limitPx := Number.toString (mul (parseFloat m) factor) in
    market_limitPx env baseUrl p w
    = (inr limitPx, post (allMids_request baseUrl) w)
    /\ run_operation env "placeOrder" baseUrl key va address p w
       = signed_run env baseUrl key va (order_action (order_of p limitPx))
                    (post (allMids_request baseUrl) w)
    /\ field "p" (order_of p limitPx) = Some (JStr limitPx)
    /\ (m = "100" ->
        mul (parseFloat m) factor
        = (if (side p =? "B")%string then of_Z 105 else of_Z 95)
        /\ limitPx = if (side p =? "B")%string then "105" else "95").
Proof.
  intros E env baseUrl key va address p w marketInfo midPrice m
         I L A G B T factor limitPx.
  assert (Hm : market_limitPx env baseUrl p w
               = (inr limitPx, post (allMids_request baseUrl) w)).
  { unfold market_limitPx, bind, lift. rewrite helpers_request_eq.
    unfold answer. fold (allMids_request baseUrl). rewrite A, G.
    cbn [ret]. rewrite B, T. cbn [negb ret]. subst limitPx factor.
    destruct (side p =? "B")%string; reflexivity. }
  split; [ exact Hm | ]. split; [ | split; [ reflexivity | ] ].
  - change (run_operation env "placeOrder" baseUrl key va address p w)
      with (placeOrder env baseUrl key va p w).
    rewrite placeOrder_eq. unfold placeOrder_cases. rewrite I.
    destruct (String.eqb_spec (orderType p) "limit"); [ contradiction | ].
    cbv zeta. unfold answer at 1. rewrite A, G, B, T.
    subst limitPx factor. unfold market_price.
    destruct (side p =? "B")%string; reflexivity.
  - intros ->. subst limitPx factor.
    destruct (side p =? "B")%string; split; vm_compute; reflexivity.
Qed.

Lemma market_order_price_witness :
  market_limitPx (Fixture.api false)
    "https://api.hyperliquid.xyz" Fixture.params initial
  = (inr "105", post (allMids_request "https://api.hyperliquid.xyz") initial)
  /\ market_limitPx (Fixture.api false)
       "https://api.hyperliquid.xyz" (Fixture.with_side "A" Fixture.params)
       initial
     = (inr "95", post (allMids_request "https://api.hyperliquid.xyz") initial).
Proof.
  split.
  - apply (market_order_price Fixture.ethers (Fixture.api false)
             "https://api.hyperliquid.xyz" "k" JUndefined JNull
             Fixture.params initial Fixture.mids (JStr "100") "100");
      try reflexivity.
    discriminate.
  - apply (market_order_price Fixture.ethers (Fixture.api false)
             "https://api.hyperliquid.xyz" "k" JUndefined JNull
             (Fixture.with_side "A" Fixture.params) initial
             Fixture.mids (JStr "100") "100");
      try reflexivity.
    discriminate.
Defined.

(* ===================================================================== *)
(** ** The effective trading address *)
(* ===================================================================== *)

Lemma is_set_truthy o a :
  is_set o a -> ToBoolean (of_option o) = true /\ of_option o = JStr a.
Proof.
  intros [-> N]. split; [ | reflexivity ]. cbn.
  destruct (String.eqb_spec a ""); [ contradiction | reflexivity ].
Qed.

Lemma unset_falsy o : unset o -> ToBoolean (of_option o) = false.
Proof. intros [-> | ->]; reflexivity. Qed.

(** C6. The effective trading address is the vault address when it is
    set; otherwise the wallet address override when that is set;
    otherwise the address derived from the private key. With both the
    vault and the override set, the vault wins. The user-scoped queries
    (for getUserFills, when no user address is given) send that address
    as [user]. *)
Theorem effective_address_priority :
  forall (E : Ethers) (env : Env) (credentials : Credentials)
         (derived : string),
    (forall v, is_set (vaultAddress credentials) v ->
               effective_address credentials derived = JStr v)
    /\ (forall a, unset (vaultAddress credentials) ->
                  is_set (walletAddress credentials) a ->
                  effective_address credentials derived = JStr a)
    /\ (unset (vaultAddress credentials) ->
        unset (walletAddress credentials) ->
        effective_address credentials derived = JStr derived)
    /\ (Wallet_address (privateKey credentials) = inr derived ->
        forall operation type p w,
          In (operation, type) address_queries ->
          userAddress p = "" ->
          sent (snd (execute env operation credentials [p] w))
          = (sent w
               ++ [info_request (baseUrl_of (network credentials))
                     (JObj [("type", JStr type);
                            ("user", effective_address credentials derived)])]
            )%list).
Proof.
  intros E env credentials derived. unfold effective_address, or.
  split; [ | split; [ | split ] ].
  - intros v Hv. destruct (is_set_truthy _ _ Hv) as [T R].
    rewrite T. cbv iota. rewrite T. exact R.
  - intros a Hv Ha. rewrite (unset_falsy _ Hv). cbv iota.
    destruct (is_set_truthy _ _ Ha) as [T R].
    rewrite T. exact R.
  - intros Hv Ha. rewrite (unset_falsy _ Hv). cbv iota.
    rewrite (unset_falsy _ Ha). reflexivity.
  - intros W operation type p w Hin U.
    unfold execute, bind. rewrite W. cbn [ret loop].
    unfold bind, try_catch.
    fold (effective_address credentials derived).
    cbn [In address_queries] in Hin.
    destruct Hin as [H | [H | [H | [H | []]]]]; injection H as <- <-;
      cbn [run_operation String.eqb Ascii.eqb Bool.eqb];
      rewrite ?U; cbn [String.eqb];
      rewrite helpers_request_eq;
      (destruct (answer env _ w); [ destruct (continueOnFail env) | ]);
      reflexivity.
Qed.

Lemma effective_address_priority_witness :
  effective_address Fixture.vault "0xKEY" = JStr "0xVVV"
  /\ effective_address
       {| privateKey := "k"; walletAddress := Some "0xWWW";
          network := "mainnet"; vaultAddress := Some "" |} "0xKEY"
     = JStr "0xWWW"
  /\ effective_address Fixture.main "0xKEY" = JStr "0xKEY"
  /\ Fixture.wire (snd (Fixture.run (Fixture.api false) "getPositions"
                          Fixture.vault [Fixture.params]))
     = map (fun r => (url r, JSON_stringify (body r)))
           [info_request "https://api.hyperliquid-testnet.xyz"
              (JObj [("type", JStr "clearinghouseState");
                     ("user", JStr "0xVVV")])].
Proof.
  pose proof (effective_address_priority Fixture.ethers (Fixture.api false)
                Fixture.vault "0xKEY") as (V & _ & _ & Q).
  pose proof (effective_address_priority Fixture.ethers (Fixture.api false)
                {| privateKey := "k"; walletAddress := Some "0xWWW";
                   network := "mainnet"; vaultAddress := Some "" |} "0xKEY")
    as (_ & W & _ & _).
  pose proof (effective_address_priority Fixture.ethers (Fixture.api false)
                Fixture.main "0xKEY") as (_ & _ & D & _).
  split; [ | split; [ | split ] ].
  - apply V. split; [ reflexivity | discriminate ].
  - apply W; [ right; reflexivity | split; [ reflexivity | discriminate ] ].
  - apply D; right; reflexivity.
  - unfold Fixture.wire, Fixture.run.
    rewrite (Q eq_refl "getPositions" "clearinghouseState" Fixture.params
               initial (or_intror (or_introl eq_refl)) eq_refl).
    reflexivity.
Defined.

(* ===================================================================== *)
(** ** Cancelling *)
(* ===================================================================== *)

(** C10. cancelAllOrders checks nothing: for every asset string it
    builds [{type: 'cancelByCloid', cancels: [{asset, cloid: null}]}],
    signs it with the current time and posts it; the only error it can
    end with is that of the request. placeOrder rejects an asset without
    a colon. *)
Theorem cancelAllOrders_checks_nothing :
  forall (E : Ethers) (env : Env) (baseUrl key : string) (va address : jsval)
         (p : Params) (w : World),
    let action :=
      JObj [("type", JStr "cancelByCloid");
            ("cancels", JArr [JObj [("asset", JStr (asset p));
                                    ("cloid", JNull)]])] in
    let r := exchange_request baseUrl key va action (now env w) in
    run_operation env "cancelAllOrders" baseUrl key va address p w
    = (answer env r (tick w),
       {| ticks := S (ticks w); sent := (sent w ++ [r])%list |})
    /\ url r = baseUrl ++ "/exchange"
    /\ carries_what_was_signed key va r
    /\ (forall m,
           fst (run_operation env "cancelAllOrders" baseUrl key va address p w)
           <> inl (NodeOperationError m))
    /\ (includes ":" (asset p) = false ->
          run_operation env "placeOrder" baseUrl key va address p w
          = (inl asset_error, tick w)).
Proof.
  intros E env baseUrl key va address p w action r.
  split; [ reflexivity | ]. split; [ reflexivity | ].
  split; [ apply exchange_request_carries | ]. split.
  - intros m. apply answer_is_not_NodeOperationError.
  - intros I.
    change (run_operation env "placeOrder" baseUrl key va address p w)
      with (placeOrder env baseUrl key va p w).
    rewrite placeOrder_eq. unfold placeOrder_cases. rewrite I. reflexivity.
Qed.

Lemma cancelAllOrders_checks_nothing_witness :
  includes ":" "nocolon" = false
  /\ run_operation (E := Fixture.ethers) (Fixture.api false) "placeOrder"
       "u" "k" JUndefined JNull
       (Fixture.with_asset "nocolon" Fixture.params) initial
     = (inl asset_error, tick initial)
  /\ fst (run_operation (E := Fixture.ethers) (Fixture.api false)
            "cancelAllOrders" "u" "k" JUndefined JNull
            (Fixture.with_asset "nocolon" Fixture.params) initial)
     = inr Fixture.ok.
Proof.
  split; [ reflexivity | ]. split; [ | reflexivity ].
  apply (cancelAllOrders_checks_nothing Fixture.ethers (Fixture.api false)
           "u" "k" JUndefined JNull
           (Fixture.with_asset "nocolon" Fixture.params) initial).
  reflexivity.
Defined.

(** [parseInt] on the decimal numerals of the standard library, and
    on what starts with a letter. *)

Lemma trim_start_plain (a : ascii) (s : string) :
  33 <= code a < 128 -> trim_start (String a s) = String a s.
Proof.
  intros H. cbn [trim_start].
  replace (ws1 (code a)) with false by (unfold ws1; lia).
  destruct s as [ | b s ]; [ reflexivity | ].
  replace (ws2 (code a) (code b)) with false by (unfold ws2; lia).
  destruct s as [ | c s ]; [ reflexivity | ].
  replace (ws3 (code a) (code b) (code c)) with false by (unfold ws3; lia).
  reflexivity.
Qed.

Lemma take_digits_acc (u : Decimal.uint) :
  forall (p : positive) (len : Z),
    take_digits 10 (NilEmpty.string_of_uint u) (Zpos p) len
    = (Zpos (Pos.of_uint_acc u p), len + Z.of_nat (Decimal.nb_digits u), "").
Proof.
  induction u as [ | u IH | u IH | u IH | u IH | u IH | u IH | u IH | u IH
                   | u IH | u IH ];
    intros p len; cbn [NilEmpty.string_of_uint take_digits Decimal.nb_digits];
    [ f_equal; f_equal; lia | .. ];
    match goal with
    | |- context [ digit_value ?c ] =>
        let d := eval vm_compute in (digit_value c) in
        change (digit_value c) with d
    end;
    cbn [Z.ltb Z.compare Pos.compare Pos.compare_cont];
    cbn [Pos.of_uint_acc];
    match goal with
    | |- take_digits _ _ ?a _ = (Zpos ?q, _, _) =>
        match q with
        | Pos.of_uint_acc _ ?p' => replace a with (Zpos p') by lia
        end
    end;
    rewrite IH; f_equal; f_equal; lia.
Qed.

Lemma take_digits_uint (u : Decimal.uint) :
  forall len : Z,
    take_digits 10 (NilEmpty.string_of_uint u) 0 len
    = (Z.of_uint u, len + Z.of_nat (Decimal.nb_digits u), "").
Proof.
  induction u as [ | u IH | u | u | u | u | u | u | u | u | u ];
    intros len; cbn [NilEmpty.string_of_uint take_digits Decimal.nb_digits];
    [ f_equal; f_equal; lia | .. ];
    match goal with
    | |- context [ digit_value ?c ] =>
        let d := eval vm_compute in (digit_value c) in
        change (digit_value c) with d
    end;
    cbn [Z.ltb Z.compare Pos.compare Pos.compare_cont Z.mul Z.add];
    [ rewrite IH; unfold Z.of_uint; cbn [Pos.of_uint]; f_equal; f_equal; lia
    | .. ];
    rewrite take_digits_acc; unfold Z.of_uint; cbn [Pos.of_uint Z.of_N];
    f_equal; f_equal; lia.
Qed.

Lemma numeral_head (u : Decimal.uint) :
  u <> Decimal.Nil ->
  exists a r, NilEmpty.string_of_uint u = String a r /\ 48 <= code a <= 57.
Proof.
  destruct u; [ contradiction | .. ]; intros _;
    cbn [NilEmpty.string_of_uint]; do 2 eexists;
    (split; [ reflexivity | vm_compute; split; discriminate ]).
Qed.

Lemma take_sign_digit (a : ascii) (r : string) :
  48 <= code a <= 57 -> take_sign (String a r) = (false, String a r).
Proof.
  intros H. destruct a as [[] [] [] [] [] [] [] []]; try reflexivity;
    exfalso; vm_compute in H; destruct H as [L U]; auto.
Qed.

Lemma numeral_has_no_prefix (u : Decimal.uint) :
  match NilEmpty.string_of_uint u with
  | String "0" (String "x" rest) => (16, rest)
  | String "0" (String "X" rest) => (16, rest)
  | _ => (10, NilEmpty.string_of_uint u)
  end = (10, NilEmpty.string_of_uint u).
Proof.
  destruct u as [ | u | | | | | | | | | ]; try reflexivity.
  destruct u; reflexivity.
Qed.

Lemma nb_digits_pos (u : Decimal.uint) : u <> Decimal.Nil -> (0 < Decimal.nb_digits u)%nat.
Proof. destruct u; [ contradiction | .. ]; intros _; cbn; lia. Qed.

Lemma parseInt_math_numeral (sg : bool) (u : Decimal.uint) :
  parseInt_math (if sg then String "-" (NilZero.string_of_uint u)
                 else NilZero.string_of_uint u) 0
  = Some (sg, Z.of_uint u).
Proof.
  destruct (Decimal.uint_eq_dec u Decimal.Nil) as [-> | N].
  { destruct sg; reflexivity. }
  replace (NilZero.string_of_uint u) with (NilEmpty.string_of_uint u)
    by (destruct u; [ contradiction | .. ]; reflexivity).
  destruct (numeral_head u N) as (a & r & Hd & A).
  unfold parseInt_math. cbn [Z.eqb negb andb orb].
  assert (T : take_sign
                (trim_start
                   (if sg then String "-" (NilEmpty.string_of_uint u)
                    else NilEmpty.string_of_uint u))
              = (sg, NilEmpty.string_of_uint u)).
  { destruct sg.
    - rewrite trim_start_plain by (vm_compute; split; congruence).
      reflexivity.
    - rewrite Hd, trim_start_plain by lia. apply take_sign_digit, A. }
  rewrite T, numeral_has_no_prefix, take_digits_uint.
  pose proof (nb_digits_pos u N) as P.
  destruct (Z.eqb_spec (0 + Z.of_nat (Decimal.nb_digits u)) 0); [ lia | reflexivity ].
Qed.

Lemma parseInt_reads_numerals (s : string) (d : Decimal.int) :
  NilZero.int_of_string s = Some d ->
  Z.abs (Z.of_int d) < 2 ^ 53 ->
  to_Z (parseInt s 0) = Some (Z.of_int d).
Proof.
  intros H B. apply NilZero.sis in H. subst s.
  assert (P : 0 <= Z.of_uint match d with Decimal.Pos u | Decimal.Neg u => u end).
  { unfold Z.of_uint. lia. }
  destruct d as [u | u]; cbn [NilZero.string_of_int Z.of_int] in *;
    unfold parseInt.
  - rewrite (parseInt_math_numeral false u).
    rewrite of_decimal_exact by lia. reflexivity.
  - rewrite (parseInt_math_numeral true u).
    rewrite of_decimal_exact by lia. reflexivity.
Qed.

Lemma parseInt_letter (c : ascii) (rest : string) :
  letter c = true -> parseInt (String c rest) 0 = NaN.
Proof.
  intros H. unfold parseInt, parseInt_math.
  rewrite trim_start_plain by (unfold letter in H; lia).
  destruct c as [[] [] [] [] [] [] [] []]; try discriminate H; reflexivity.
Qed.

(** C3, as stated, fails on the order id "abc": [parseInt] answers NaN,
    no error is raised, and the cancel action with [o = NaN] (written
    [null] by [JSON.stringify]) is signed and posted. It also fails on
    the order id "9007199254740993", an integer that no Number holds:
    the [o] that is sent is 9007199254740992. *)
Lemma cancelOrder_abc_is_sent :
  parseInt_math "abc" 0 = None
  /\ parseInt "abc" 0 = NaN
  /\ JSON_stringify (JNum NaN) = Some "null"
  /\ run_operation (E := Fixture.ethers) (Fixture.api false) "cancelOrder"
       "https://api.hyperliquid.xyz" "k" JUndefined (JStr "0xKEY")
       (Fixture.with_orderId "abc" Fixture.params) initial
     = (inr Fixture.ok,
        {| ticks := 1;
           sent := [exchange_request (E := Fixture.ethers)
                      "https://api.hyperliquid.xyz" "k" JUndefined
                      (cancel_with NaN "xyz:XYZ100")
                      (of_Z 1730000000000)] |})
  /\ NilZero.int_of_string "9007199254740993"
     = Some (Z.to_int 9007199254740993)
  /\ to_Z (parseInt "9007199254740993" 0) = Some 9007199254740992.
Proof. repeat split. Qed.

(** C3 (amended). Every cancelOrder builds
    [{type: 'cancel', cancels: [{a: 0, o: parseInt(orderId), c: coin}]}],
    signs it and posts it; it raises no error of its own. When the order
    id is a decimal integer of magnitude below 2^53, [o] is that
    integer. When the order id does not parse ([parseInt] answers NaN,
    as it does for the empty string and for whatever starts with a
    letter), [o] is NaN, written [null] by [JSON.stringify], and the
    action is signed and posted like any other. *)
Theorem cancelOrder_sends_parseInt :
  forall (E : Ethers) (env : Env) (baseUrl key : string) (va address : jsval)
         (p : Params) (w : World),
    run_operation env "cancelOrder" baseUrl key va address p w
    = signed_run env baseUrl key va
                 (cancel_with (parseInt (orderId p) 0) (coin p)) w
    /\ (forall m,
           fst (run_operation env "cancelOrder" baseUrl key va address p w)
           <> inl (NodeOperationError m))
    /\ (forall d : Decimal.int,
           NilZero.int_of_string (orderId p) = Some d ->
           Z.abs (Z.of_int d) < 2 ^ 53 ->
           to_Z (parseInt (orderId p) 0) = Some (Z.of_int d))
    /\ (parseInt (orderId p) 0 = NaN ->
          JSON_stringify (JNum (parseInt (orderId p) 0)) = Some "null"
          /\ run_operation env "cancelOrder" baseUrl key va address p w
             = signed_run env baseUrl key va
                          (cancel_with NaN (coin p)) w)
    /\ (orderId p = ""
        \/ (exists c rest, orderId p = String c rest /\ letter c = true) ->
        parseInt (orderId p) 0 = NaN).
Proof.
  intros E env baseUrl key va address p w.
  split; [ reflexivity | ]. split; [ | split; [ | split ] ].
  - intros m. apply answer_is_not_NodeOperationError.
  - intros d. apply parseInt_reads_numerals.
  - intros N.
    change (run_operation env "cancelOrder" baseUrl key va address p w)
      with (signed_run env baseUrl key va
              (cancel_with (parseInt (orderId p) 0) (coin p)) w).
    rewrite N. split; reflexivity.
  - intros [-> | (c & rest & -> & L)];
      [ reflexivity | exact (parseInt_letter c rest L) ].
Qed.

Lemma cancelOrder_sends_parseInt_witness :
  (NilZero.int_of_string "42" = Some (Z.to_int 42)
   /\ to_Z (parseInt "42" 0) = Some 42)
  /\ (letter "a" = true
      /\ parseInt "abc" 0 = NaN
      /\ run_operation (E := Fixture.ethers) (Fixture.api false)
           "cancelOrder" "u" "k" JUndefined JNull
           (Fixture.with_orderId "abc" Fixture.params) initial
         = signed_run (E := Fixture.ethers) (Fixture.api false) "u" "k"
                      JUndefined (cancel_with NaN "xyz:XYZ100") initial).
Proof.
  pose proof (cancelOrder_sends_parseInt Fixture.ethers (Fixture.api false)
                "u" "k" JUndefined JNull Fixture.params initial)
    as (_ & _ & I & _).
  pose proof (cancelOrder_sends_parseInt Fixture.ethers (Fixture.api false)
                "u" "k" JUndefined JNull
                (Fixture.with_orderId "abc" Fixture.params) initial)
    as (_ & _ & _ & S & L).
  split.
  - split; [ reflexivity | ].
    exact (I (Z.to_int 42) eq_refl ltac:(vm_compute; reflexivity)).
  - split; [ reflexivity | ].
    assert (N : parseInt "abc" 0 = NaN).
    { apply L. right. exists "a"%char, "bc". split; reflexivity. }
    split; [ exact N | ]. exact (proj2 (S N)).
Defined.

(* ===================================================================== *)
(** ** The batch *)
(* ===================================================================== *)

Section BatchFacts.

Variable run : Params -> World -> (Error + jsval) * World.

Lemma entries_length items : forall i w,
  List.length (entries run i items w) = List.length items.
Proof.
  induction items as [ | p rest IH ]; intros i w; cbn [entries List.length].
  - reflexivity.
  - rewrite IH. reflexivity.
Qed.

Lemma entries_nth items : forall k w i p,
  nth_error items i = Some p ->
  nth_error (entries run k items w) i
  = Some (entry (k + i) (outcome run items w i p)).
Proof.
  induction items as [ | q rest IH ]; intros k w i p H.
  - destruct i; discriminate H.
  - destruct i as [ | i ].
    + injection H as ->. cbn. rewrite Nat.add_0_r. reflexivity.
    + cbn [nth_error] in H. cbn [entries nth_error].
      rewrite (IH (S k) _ i p H). unfold outcome.
      cbn [firstn world_after]. rewrite Nat.add_succ_r. reflexivity.
Qed.

Lemma first_failure_at items : forall w i p e,
  nth_error items i = Some p ->
  (forall j q, (j < i)%nat -> nth_error items j = Some q ->
               exists v, outcome run items w j q = inr v) ->
  outcome run items w i p = inl e ->
  first_failure run items w = Some (e, world_at run items w i p).
Proof.
  induction items as [ | q rest IH ]; intros w i p e H Before Fails.
  - destruct i; discriminate H.
  - destruct i as [ | i ].
    + injection H as ->. unfold outcome, world_at in *.
      cbn [firstn world_after first_failure] in *.
      destruct (run p w) as [[e' | v] w']; cbn [fst snd] in *.
      * congruence.
      * discriminate Fails.
    + cbn [nth_error] in H. cbn [first_failure].
      destruct (Before 0%nat q (Nat.lt_0_succ i) eq_refl) as [v Hv].
      unfold outcome in Hv. cbn [firstn world_after] in Hv.
      destruct (run q w) as [[e' | v'] w'] eqn:R; cbn [fst] in Hv;
        [ discriminate Hv | ].
      unfold world_at. cbn [firstn world_after]. rewrite R. cbn [snd].
      apply IH; [ exact H | | ].
      * intros j q' L N.
        destruct (Before (S j) q' (proj1 (Nat.succ_lt_mono j i) L) N)
          as [v'' Hv''].
        exists v''. unfold outcome in *. cbn [firstn world_after] in Hv''.
        rewrite R in Hv''. exact Hv''.
      * unfold outcome in *. cbn [firstn world_after] in Fails.
        rewrite R in Fails. exact Fails.
Qed.

End BatchFacts.

Section Loop.

Context {E : Ethers}.
Variable env : Env.
Variables operation baseUrl key : string.
Variables va address : jsval.

Lemma loop_isolated :
  continueOnFail env = true ->
  forall items i returnData w,
    loop env operation baseUrl key va address i items returnData w
    = (inr (returnData
              ++ entries (run_operation env operation baseUrl key va address)
                         i items w)%list,
       world_after (run_operation env operation baseUrl key va address)
                   items w).
Proof.
  set (run := run_operation env operation baseUrl key va address).
  intros C. induction items as [ | p rest IH ]; intros i returnData w.
  - cbn. rewrite app_nil_r. reflexivity.
  - cbn [loop entries world_after]. unfold bind at 1, try_catch, bind.
    fold run. rewrite C.
    destruct (run p w) as [[e | v] w']; cbn [ret fst snd entry];
      rewrite IH, <- app_assoc; reflexivity.
Qed.

Lemma loop_aborting :
  continueOnFail env = false ->
  forall items i returnData w,
    loop env operation baseUrl key va address i items returnData w
    = match first_failure (run_operation env operation baseUrl key va address)
                          items w with
      | Some (e, w') => (inl e, w')
      | None =>
          (inr (returnData
                  ++ entries (run_operation env operation baseUrl key va
                                            address) i items w)%list,
           world_after (run_operation env operation baseUrl key va address)
                       items w)
      end.
Proof.
  set (run := run_operation env operation baseUrl key va address).
  intros C. induction items as [ | p rest IH ]; intros i returnData w.
  - cbn. rewrite app_nil_r. reflexivity.
  - cbn [loop entries world_after first_failure].
    unfold bind at 1, try_catch, bind.
    fold run. rewrite C.
    destruct (run p w) as [[e | v] w']; cbn [ret throw fst snd entry].
    + reflexivity.
    + rewrite IH. destruct (first_failure run rest w') as [[e w''] | ].
      * reflexivity.
      * rewrite <- app_assoc. reflexivity.
Qed.

End Loop.

(** C7. With per-item isolation ([continueOnFail]) the output has one
    element per input item, in order; the element of a failing item [i]
    is [{error: message}] paired with [i], that of any other item is its
    response paired with its index, and every item is processed.
    Without isolation the first item that fails ends the invocation with
    its error: nothing is returned and the world is the one that item
    left, so no later item is processed. *)
Theorem batch_error_isolation :
  forall (E : Ethers) (env : Env) (operation : string)
         (credentials : Credentials) (items : list Params) (w : World)
         (derived : string),
    Wallet_address (privateKey credentials) = inr derived ->
    let run :=
      run_operation env operation (baseUrl_of (network credentials))
                    (privateKey credentials)
                    (of_option (vaultAddress credentials))
                    (effective_address credentials derived) in
    (continueOnFail env = true ->
       exists out,
         execute env operation credentials items w
         = (inr [out], world_after run items w)
         /\ List.length out = List.length items
         /\ forall i p, nth_error items i = Some p ->
              (forall e, outcome run items w i p = inl e ->
                 nth_error out i
                 = Some {| json := JObj [("error", JStr (message e))];
                           pairedItem := i |})
              /\ (forall v, outcome run items w i p = inr v ->
                    nth_error out i = Some {| json := v; pairedItem := i |}))
    /\ (continueOnFail env = false ->
          forall i p e,
            nth_error items i = Some p ->
            (forall j q, (j < i)%nat -> nth_error items j = Some q ->
                         exists v, outcome run items w j q = inr v) ->
            outcome run items w i p = inl e ->
            execute env operation credentials items w
            = (inl e, world_at run items w i p)).
Proof.
  intros E env operation credentials items w derived W run. split.
  - intros C. exists (entries run 0 items w). split; [ | split ].
    + unfold execute, bind. rewrite W. cbn [ret].
      rewrite (loop_isolated env _ _ _ _ _ C). reflexivity.
    + apply entries_length.
    + intros i p H. pose proof (entries_nth run items 0 w i p H) as N.
      cbn [Nat.add] in N. split.
      * intros e O. rewrite N, O. reflexivity.
      * intros v O. rewrite N, O. reflexivity.
  - intros C i p e H Before Fails.
    unfold execute, bind. rewrite W. cbn [ret].
    rewrite (loop_aborting env _ _ _ _ _ C).
    fold run. rewrite (first_failure_at run items w i p e H Before Fails).
    reflexivity.
Qed.

Lemma batch_error_isolation_witness :
  (exists out,
      fst (Fixture.run (Fixture.flaky 1 true) "getPositions" Fixture.main
             [Fixture.params; Fixture.params; Fixture.params])
      = inr [out]
      /\ List.length out = 3%nat
      /\ nth_error out 1
         = Some {| json := JObj [("error", JStr "socket hang up")];
                   pairedItem := 1 |}
      /\ nth_error out 2 = Some {| json := Fixture.mids; pairedItem := 2 |})
  /\ Fixture.run (Fixture.flaky 1 false) "getPositions" Fixture.main
       [Fixture.params; Fixture.params; Fixture.params]
     = (inl (RequestError "socket hang up"),
        {| ticks := 0;
           sent := [info_request "https://api.hyperliquid.xyz"
                      (clearinghouseState (JStr "0xKEY"));
                    info_request "https://api.hyperliquid.xyz"
                      (clearinghouseState (JStr "0xKEY"))] |}).
Proof.
  split.
  - destruct (batch_error_isolation Fixture.ethers (Fixture.flaky 1 true)
                "getPositions" Fixture.main
                [Fixture.params; Fixture.params; Fixture.params]
                initial "0xKEY" eq_refl) as [Isolated _].
    destruct (Isolated eq_refl) as (out & Run & Len & Nth).
    exists out. unfold Fixture.run. rewrite Run.
    split; [ reflexivity | ]. split; [ exact Len | ]. split.
    + apply (proj1 (Nth 1%nat Fixture.params eq_refl)
               (RequestError "socket hang up")).
      reflexivity.
    + apply (proj2 (Nth 2%nat Fixture.params eq_refl)). reflexivity.
  - destruct (batch_error_isolation Fixture.ethers (Fixture.flaky 1 false)
                "getPositions" Fixture.main
                [Fixture.params; Fixture.params; Fixture.params]
                initial "0xKEY" eq_refl) as [_ Aborting].
    unfold Fixture.run.
    rewrite (Aborting eq_refl 1%nat Fixture.params
               (RequestError "socket hang up") eq_refl).
    + reflexivity.
    + intros j q L N. destruct j as [ | j ]; [ | lia ].
      exists Fixture.mids. injection N as <-. reflexivity.
    + reflexivity.
Defined.

(* ===================================================================== *)
(** ** Beyond the claims: every operation, request by request *)
(* ===================================================================== *)

Section Cases.

Context {E : Ethers}.
Variable env : Env.

Lemma run_operation_cases operation baseUrl key va address p :
  (operation = "placeOrder"
   /\ run_operation env operation baseUrl key va address p
      = placeOrder env baseUrl key va p)
  \/ (operation = "cancelOrder"
      /\ run_operation env operation baseUrl key va address p
         = cancelOrder env baseUrl key va p)
  \/ (operation = "cancelAllOrders"
      /\ run_operation env operation baseUrl key va address p
         = cancelAllOrders env baseUrl key va p)
  \/ (is_query operation
      /\ exists b,
           query_body operation address p = Some b
           /\ run_operation env operation baseUrl key va address p
              = helpers_request env (info_request baseUrl b))
  \/ (~ In operation Description.operations
      /\ query_body operation address p = None
      /\ run_operation env operation baseUrl key va address p
         = ret JUndefined).
Proof.
  unfold run_operation, query_body, is_query.
  destruct (String.eqb_spec operation "placeOrder") as [-> | N1];
    [ left; split; reflexivity | right ].
  destruct (String.eqb_spec operation "cancelOrder") as [-> | N2];
    [ left; split; reflexivity | right ].
  destruct (String.eqb_spec operation "cancelAllOrders") as [-> | N3];
    [ left; split; reflexivity | right ].
  destruct (String.eqb_spec operation "getOpenOrders") as [-> | N4];
    [ left; split; [ cbn; tauto | eexists; split; reflexivity ] | ].
  destruct (String.eqb_spec operation "getPositions") as [-> | N5];
    [ left; split; [ cbn; tauto | eexists; split; reflexivity ] | ].
  destruct (String.eqb_spec operation "getAccountSummary") as [-> | N6];
    [ left; split; [ cbn; tauto | eexists; split; reflexivity ] | ].
  destruct (String.eqb_spec operation "getMarketInfo") as [-> | N7];
    [ left; split; [ cbn; tauto | eexists; split; reflexivity ] | ].
  destruct (String.eqb_spec operation "getOrderBook") as [-> | N8];
    [ left; split; [ cbn; tauto | eexists; split; reflexivity ] | ].
  destruct (String.eqb_spec operation "getUserFills") as [-> | N9];
    [ left; split; [ cbn; tauto | eexists; split; reflexivity ] | ].
  right. split; [ | split; reflexivity ].
  cbn. intros H. repeat destruct H as [H | H]; congruence.
Qed.

End Cases.

Section Effects.

Context {E : Ethers}.
Variable env : Env.

Lemma answer_is_not_local r w e :
  answer env r w = inl e -> local_error e -> False.
Proof.
  unfold answer. destruct (respond env (sent w) r); [ | discriminate ].
  intros [= <-] [].
Qed.

Lemma exchange_request_is_node_request baseUrl key va action ts :
  node_request baseUrl (exchange_request baseUrl key va action ts).
Proof.
  split; [ reflexivity | ]. split; [ reflexivity | ]. right.
  split; [ reflexivity | ]. eexists. reflexivity.
Qed.

Lemma signed_run_effects baseUrl key va action w :
  item_effects baseUrl w (signed_run env baseUrl key va action w).
Proof.
  exists [exchange_request baseUrl key va action (now env w)].
  split; [ reflexivity | ]. split.
  - constructor; [ apply exchange_request_is_node_request | constructor ].
  - split; [ cbn; lia | ]. split; [ cbn; lia | ].
    intros e H L. exfalso. exact (answer_is_not_local _ _ _ H L).
Qed.

Lemma filter_info_request baseUrl b :
  exchange_requests baseUrl [info_request baseUrl b] = [].
Proof.
  unfold exchange_requests. cbn [filter url info_request].
  destruct (String.eqb_spec (baseUrl ++ "/info") (baseUrl ++ "/exchange"))
    as [H | _]; [ | reflexivity ].
  exfalso. exact (info_is_not_exchange baseUrl H).
Qed.

Lemma allMids_is_node_request baseUrl :
  node_request baseUrl (allMids_request baseUrl).
Proof. repeat split. left. repeat split. Qed.

Lemma placeOrder_effects baseUrl key va p w :
  item_effects baseUrl w (placeOrder env baseUrl key va p w).
Proof.
  rewrite placeOrder_eq. unfold placeOrder_cases.
  assert (Stamped : forall m,
             item_effects baseUrl w (inl (NodeOperationError m), tick w)).
  { intros m. exists []. rewrite app_nil_r.
    split; [ reflexivity | ]. split; [ constructor | ].
    split; [ cbn; lia | ]. split; [ cbn; lia | ].
    intros e [= <-] _. split; [ reflexivity | cbn; lia ]. }
  destruct (includes ":" (asset p)); [ | apply Stamped ].
  destruct (orderType p =? "limit")%string.
  - destruct (price p =? "")%string;
      [ apply Stamped | apply signed_run_effects ].
  - cbv zeta.
    assert (One : forall e n,
               (n <= 1)%nat -> (local_error e -> n = stamps e) ->
               item_effects baseUrl w
                 (inl e, {| ticks := ticks w + n;
                            sent := (sent w ++ [allMids_request baseUrl])%list
                         |})).
    { intros e n B L. exists [allMids_request baseUrl].
      split; [ reflexivity | ]. split.
      - constructor; [ apply allMids_is_node_request | constructor ].
      - split; [ cbn; lia | ]. split; [ cbn; lia | ].
        intros e' [= <-] L'.
        split; [ apply filter_info_request | cbn; rewrite (L L'); lia ]. }
    assert (Plain : forall e,
               (local_error e -> stamps e = 0%nat) ->
               item_effects baseUrl w
                 (inl e, post (allMids_request baseUrl) w)).
    { intros e L.
      pose proof (One e 0%nat ltac:(lia)
                    (fun H => eq_sym (L H))) as X.
      rewrite Nat.add_0_r in X. exact X. }
    destruct (answer env (allMids_request baseUrl) w) as [e | marketInfo]
      eqn:A.
    { apply Plain. intros L. exfalso.
      exact (answer_is_not_local _ _ _ A L). }
    destruct (Get marketInfo (asset p)) as [e | midPrice] eqn:G.
    { apply Plain. intros _.
      destruct marketInfo; try discriminate G; injection G as <-;
        reflexivity. }
    destruct (ToBoolean midPrice).
    2:{ pose proof (One (NodeOperationError
                           ("Could not find mid price for " ++ asset p))
                        1%nat ltac:(lia) (fun _ => eq_refl)) as X.
        rewrite Nat.add_1_r in X. exact X. }
    destruct (ToString midPrice) as [text | ];
      [ | apply Plain; reflexivity ].
    set (action := order_action (order_of p (market_price p text))).
    set (w1 := post (allMids_request baseUrl) w).
    exists [allMids_request baseUrl;
            exchange_request baseUrl key va action (now env w1)].
    split; [ cbn; rewrite <- app_assoc; reflexivity | ]. split.
    + constructor; [ apply allMids_is_node_request | ].
      constructor; [ apply exchange_request_is_node_request | constructor ].
    + split; [ cbn; lia | ]. split; [ cbn; lia | ].
      intros e H L. exfalso. exact (answer_is_not_local _ _ _ H L).
Qed.

Lemma query_body_is_unsigned operation address p b :
  query_body operation address p = Some b ->
  field "action" b = None /\ field "signature" b = None.
Proof.
  unfold query_body.
  repeat match goal with
         | |- context [ (operation =? ?s)%string ] =>
             destruct (operation =? s)%string
         end;
    intros [= <-]; split; reflexivity.
Qed.

Lemma run_operation_effects operation baseUrl key va address p w :
  item_effects baseUrl w
    (run_operation env operation baseUrl key va address p w).
Proof.
  destruct (run_operation_cases env operation baseUrl key va address p)
    as [[_ ->] | [[_ ->] | [[_ ->] | [[_ (b & B & ->)] | (_ & _ & ->)]]]].
  - apply placeOrder_effects.
  - rewrite cancelOrder_eq. apply signed_run_effects.
  - rewrite cancelAllOrders_eq. apply signed_run_effects.
  - rewrite helpers_request_eq. exists [info_request baseUrl b].
    split; [ reflexivity | ]. split.
    + constructor; [ | constructor ].
      destruct (query_body_is_unsigned _ _ _ _ B) as [A S].
      repeat split. left. repeat split; assumption.
    + split; [ cbn; lia | ]. split; [ cbn; lia | ].
      intros e F L. split; [ apply filter_info_request | ].
      exfalso. exact (answer_is_not_local _ _ _ F L).
  - exists []. rewrite app_nil_r. split; [ reflexivity | ].
    split; [ constructor | ]. split; [ cbn; lia | ]. split; [ cbn; lia | ].
    intros e F. discriminate F.
Qed.

Lemma loop_effects operation baseUrl key va address items :
  forall i returnData w,
    batch_effects baseUrl (List.length items) w
      (snd (loop env operation baseUrl key va address i items returnData w)).
Proof.
  induction items as [ | p rest IH ]; intros i returnData w.
  - exists []. cbn. rewrite app_nil_r. repeat split; try lia. constructor.
  - cbn [loop]. unfold bind at 1, try_catch, bind.
    destruct (run_operation_effects operation baseUrl key va address p w)
      as (new & S1 & F1 & L1 & T1 & _).
    destruct (run_operation env operation baseUrl key va address p w)
      as [[e | v] w1]; cbn [snd fst ret] in *.
    + destruct (continueOnFail env); cbn [ret throw snd fst].
      * destruct (IH (S i) (returnData ++ [error_entry i e])%list w1)
          as (new' & S2 & F2 & L2 & T2).
        exists (new ++ new')%list. rewrite S2, S1, <- app_assoc.
        split; [ reflexivity | ]. split; [ apply Forall_app; tauto | ].
        rewrite length_app. cbn [List.length]. lia.
      * exists new. split; [ exact S1 | ]. split; [ exact F1 | ].
        cbn [List.length]. lia.
    + destruct (IH (S i)
                   (returnData ++ [{| json := v; pairedItem := i |}])%list w1)
        as (new' & S2 & F2 & L2 & T2).
      exists (new ++ new')%list. rewrite S2, S1, <- app_assoc.
      split; [ reflexivity | ]. split; [ apply Forall_app; tauto | ].
      rewrite length_app. cbn [List.length]. lia.
Qed.

End Effects.

(** X1. Whatever the operation, the items and the answers, every request
    an invocation sends is a JSON POST to [{baseUrl}/info] or to
    [{baseUrl}/exchange] of the host chosen by the credential's network:
    an [/info] body carries no action and no signature, an [/exchange]
    body carries the three signature parts. Earlier requests stay as
    they were. *)
Theorem execute_sends_node_requests :
  forall (E : Ethers) (env : Env) (operation : string)
         (credentials : Credentials) (items : list Params) (w : World),
  exists new,
    sent (snd (execute env operation credentials items w))
    = (sent w ++ new)%list
    /\ Forall (node_request (baseUrl_of (network credentials))) new.
Proof.
  intros E env operation credentials items w. unfold execute, bind.
  destruct (Wallet_address (privateKey credentials)) as [m | derived].
  - exists []. cbn. rewrite app_nil_r. split; [ reflexivity | constructor ].
  - cbn [ret].
    destruct (loop_effects env operation (baseUrl_of (network credentials))
                (privateKey credentials)
                (of_option (vaultAddress credentials))
                (effective_address credentials derived) items 0%nat [] w)
      as (new & S1 & F1 & _).
    exists new. split; [ | exact F1 ].
    destruct (loop env operation _ _ _ _ 0%nat items [] w) as [[e | out] w'];
      exact S1.
Qed.

(** X2. An invocation sends at most two requests per item and reads the
    clock at most once per item; an empty batch sends nothing. *)
Theorem execute_request_budget :
  forall (E : Ethers) (env : Env) (operation : string)
         (credentials : Credentials) (items : list Params) (w : World),
    let w' := snd (execute env operation credentials items w) in
    (List.length (sent w') <= List.length (sent w) + 2 * List.length items)%nat
    /\ (ticks w <= ticks w' <= ticks w + List.length items)%nat.
Proof.
  intros E env operation credentials items w w'. subst w'.
  unfold execute, bind.
  destruct (Wallet_address (privateKey credentials)) as [m | derived].
  - cbn. lia.
  - cbn [ret].
    destruct (loop_effects env operation (baseUrl_of (network credentials))
                (privateKey credentials)
                (of_option (vaultAddress credentials))
                (effective_address credentials derived) items 0%nat [] w)
      as (new & S1 & _ & L1 & T1).
    destruct (loop env operation _ _ _ _ 0%nat items [] w) as [[e | out] w'];
      cbn [snd ret] in *; rewrite S1, length_app; lia.
Qed.

(** X3. The outcome for an item depends only on the parameters the
    description shows for the chosen operation (and, for the price, for
    the chosen order type): two items that agree on them behave alike. *)
Theorem hidden_parameters_are_ignored :
  forall (E : Ethers) (env : Env) (operation baseUrl key : string)
         (va address : jsval) (p p' : Params),
    agree_on_displayed operation p p' ->
    run_operation env operation baseUrl key va address p
    = run_operation env operation baseUrl key va address p'.
Proof.
  intros E env operation baseUrl key va address p p' H.
  unfold agree_on_displayed in H.
  destruct (run_operation_cases env operation baseUrl key va address p)
    as [[-> ->] | [[-> ->] | [[-> ->] | [[Q (b & B & R)] | (N & _ & ->)]]]].
  - shown H Description.asset Hasset. shown H Description.side Hside.
    shown H Description.size Hsize. shown H Description.orderType Htype.
    shown H Description.reduceOnly Hreduce. shown H Description.price Hprice.
    specialize (Hasset eq_refl). specialize (Hside eq_refl).
    specialize (Hsize eq_refl). specialize (Htype eq_refl).
    specialize (Hreduce eq_refl).
    injection Hasset as Hasset. injection Hside as Hside.
    injection Hsize as Hsize. injection Htype as Htype.
    injection Hreduce as Hreduce.
    change (run_operation env "placeOrder" baseUrl key va address p')
      with (placeOrder env baseUrl key va p').
    unfold placeOrder, market_limitPx, order_of.
    rewrite <- Hasset, <- Hside, <- Hsize, <- Htype, <- Hreduce.
    destruct (orderType p =? "limit")%string; [ | reflexivity ].
    specialize (Hprice eq_refl). injection Hprice as Hprice.
    rewrite <- Hprice. reflexivity.
  - shown H Description.orderId Hid. shown H Description.coin Hcoin.
    specialize (Hid eq_refl). specialize (Hcoin eq_refl).
    injection Hid as Hid. injection Hcoin as Hcoin.
    change (run_operation env "cancelOrder" baseUrl key va address p')
      with (cancelOrder env baseUrl key va p').
    unfold cancelOrder, cancel_action. rewrite <- Hid, <- Hcoin. reflexivity.
  - shown H Description.asset Hasset. specialize (Hasset eq_refl).
    injection Hasset as Hasset.
    change (run_operation env "cancelAllOrders" baseUrl key va address p')
      with (cancelAllOrders env baseUrl key va p').
    unfold cancelAllOrders, cancelAll_action. rewrite <- Hasset. reflexivity.
  - rewrite R. clear R.
    cbn [is_query In] in Q.
    destruct Q as [<- | [<- | [<- | [<- | [<- | [<- | []]]]]]];
      cbn in B; injection B as <-; try reflexivity.
    + shown H Description.asset Hasset. specialize (Hasset eq_refl).
      injection Hasset as Hasset.
      cbn [run_operation String.eqb Ascii.eqb Bool.eqb]. rewrite <- Hasset.
      reflexivity.
    + shown H Description.userAddress Huser. specialize (Huser eq_refl).
      injection Huser as Huser.
      cbn [run_operation String.eqb Ascii.eqb Bool.eqb]. rewrite <- Huser.
      reflexivity.
  - destruct (run_operation_cases env operation baseUrl key va address p')
      as [[-> _] | [[-> _] | [[-> _] | [[Q _] | (_ & _ & ->)]]]];
      try reflexivity; exfalso; apply N; cbn; cbn [is_query In] in *; tauto.
Qed.

(** X4. When an item ends with an error of the node itself or of the
    language (a failed check, a missing mid price, an unreadable
    answer), nothing was posted to [/exchange] for it and no nonce was
    taken: the clock was read once for the time stamp of a new
    [NodeOperationError], and not at all for an error of the
    language. *)
Theorem local_error_posts_no_order :
  forall (E : Ethers) (env : Env) (operation baseUrl key : string)
         (va address : jsval) (p : Params) (w : World) (e : Error),
    fst (run_operation env operation baseUrl key va address p w) = inl e ->
    local_error e ->
    let w' := snd (run_operation env operation baseUrl key va address p w) in
    ticks w' = (ticks w + stamps e)%nat
    /\ exists new,
         sent w' = (sent w ++ new)%list
         /\ exchange_requests baseUrl new = [].
Proof.
  intros E env operation baseUrl key va address p w e F L w'. subst w'.
  destruct (run_operation_effects env operation baseUrl key va address p w)
    as (new & S1 & _ & _ & _ & X).
  destruct (X e F L) as [N T]. split; [ exact T | ].
  exists new. split; assumption.
Qed.

(** X5. A market order whose [allMids] answer has no usable entry for
    the asset (absent, null, false, zero or the empty string) fails
    with "Could not find mid price for <asset>" after that one lookup:
    nothing is signed, and the one reading of the clock is the time
    stamp of the error. *)
Theorem market_order_without_mid_price :
  forall (E : Ethers) (env : Env) (baseUrl key : string) (va address : jsval)
         (p : Params) (w : World) (marketInfo midPrice : jsval),
    includes ":" (asset p) = true ->
    orderType p <> "limit" ->
    respond env (sent w) (allMids_request baseUrl) = inr marketInfo ->
    Get marketInfo (asset p) = inr midPrice ->
    ToBoolean midPrice = false ->
    run_operation env "placeOrder" baseUrl key va address p w
    = (inl (NodeOperationError ("Could not find mid price for " ++ asset p)),
       {| ticks := S (ticks w);
          sent := (sent w ++ [allMids_request baseUrl])%list |}).
Proof.
  intros E env baseUrl key va address p w marketInfo midPrice I L A G B.
  change (run_operation env "placeOrder" baseUrl key va address p w)
    with (placeOrder env baseUrl key va p w).
  rewrite placeOrder_eq. unfold placeOrder_cases. rewrite I.
  destruct (String.eqb_spec (orderType p) "limit"); [ contradiction | ].
  cbv zeta. unfold answer. rewrite A, G, B. reflexivity.
Qed.

(** X6. The mid price is not checked to be a number: when [parseFloat]
    cannot read it, the market order is still signed and sent, with the
    price "NaN". *)
Theorem market_order_with_unreadable_mid_price :
  forall (E : Ethers) (env : Env) (baseUrl key : string) (va address : jsval)
         (p : Params) (w : World) (marketInfo midPrice : jsval) (m : string),
    includes ":" (asset p) = true ->
    orderType p <> "limit" ->
    respond env (sent w) (allMids_request baseUrl) = inr marketInfo ->
    Get marketInfo (asset p) = inr midPrice ->
    ToBoolean midPrice = true ->
    ToString midPrice = Some m ->
    parseFloat m = NaN ->
    run_operation env "placeOrder" baseUrl key va address p w
    = signed_run env baseUrl key va (order_action (order_of p "NaN"))
                 (post (allMids_request baseUrl) w).
Proof.
  intros E env baseUrl key va address p w marketInfo midPrice m
         I L A G B T N.
  change (run_operation env "placeOrder" baseUrl key va address p w)
    with (placeOrder env baseUrl key va p w).
  rewrite placeOrder_eq. unfold placeOrder_cases. rewrite I.
  destruct (String.eqb_spec (orderType p) "limit"); [ contradiction | ].
  cbv zeta. unfold answer at 1. rewrite A, G, B, T.
  unfold market_price. rewrite N.
  destruct (side p =? "B")%string; reflexivity.
Qed.

(** X7. An order type that is neither "limit" nor "market" is priced
    from the mid price like a market order, yet its time in force is
    "Gtc", not "Ioc". *)
Theorem unlisted_order_type_rests_at_market_price :
  forall (E : Ethers) (env : Env) (baseUrl key : string) (va address : jsval)
         (p : Params) (w : World) (marketInfo midPrice : jsval) (m : string),
    includes ":" (asset p) = true ->
    orderType p <> "limit" ->
    orderType p <> "market" ->
    respond env (sent w) (allMids_request baseUrl) = inr marketInfo ->
    Get marketInfo (asset p) = inr midPrice ->
    ToBoolean midPrice = true ->
    ToString midPrice = Some m ->
    let order := order_of p (market_price p m) in
    run_operation env "placeOrder" baseUrl key va address p w
    = signed_run env baseUrl key va (order_action order)
                 (post (allMids_request baseUrl) w)
    /\ field "p" order = Some (JStr (market_price p m))
    /\ tif_of order = Some (JStr "Gtc").
Proof.
  intros E env baseUrl key va address p w marketInfo midPrice m
         I L M A G B T order.
  subst order. split; [ | split; [ reflexivity | ] ].
  - change (run_operation env "placeOrder" baseUrl key va address p w)
      with (placeOrder env baseUrl key va p w).
    rewrite placeOrder_eq. unfold placeOrder_cases. rewrite I.
    destruct (String.eqb_spec (orderType p) "limit"); [ contradiction | ].
    cbv zeta. unfold answer at 1. rewrite A, G, B, T. reflexivity.
  - unfold tif_of, order_of. cbn [field lookup String.eqb Ascii.eqb Bool.eqb].
    destruct (String.eqb_spec (orderType p) "market");
      [ contradiction | reflexivity ].
Qed.

(** X8. When the wallet cannot be built from the private key, the
    invocation fails with that error before any item is looked at:
    nothing is sent, also with per-item isolation switched on. *)
Theorem invalid_key_stops_everything :
  forall (E : Ethers) (env : Env) (operation : string)
         (credentials : Credentials) (items : list Params) (w : World)
         (m : string),
    Wallet_address (privateKey credentials) = inl m ->
    execute env operation credentials items w = (inl (EthersError m), w).
Proof.
  intros E env operation credentials items w m H.
  unfold execute, bind. rewrite H. reflexivity.
Qed.

Section Unknown.

Context {E : Ethers}.
Variable env : Env.

Lemma loop_undefined operation baseUrl key va address items :
  ~ In operation Description.operations ->
  forall i returnData w,
    loop env operation baseUrl key va address i items returnData w
    = (inr (returnData
              ++ map (fun i => {| json := JUndefined; pairedItem := i |})
                     (seq i (List.length items)))%list, w).
Proof.
  intros N. induction items as [ | p rest IH ]; intros i returnData w.
  - cbn. rewrite app_nil_r. reflexivity.
  - cbn [loop]. unfold bind at 1, try_catch, bind.
    destruct (run_operation_cases env operation baseUrl key va address p)
      as [[-> _] | [[-> _] | [[-> _] | [[Q _] | (_ & _ & ->)]]]];
      try (exfalso; apply N; cbn; cbn [is_query In] in *; tauto).
    cbn [ret]. rewrite IH. cbn [List.length seq map].
    rewrite <- app_assoc. reflexivity.
Qed.

Lemma app_grows (A : Type) (l : list A) (x : A) (rest : list A) :
  (l ++ x :: rest)%list <> l.
Proof.
  intros H. apply (f_equal (@List.length A)) in H.
  rewrite length_app in H. cbn in H. lia.
Qed.

Lemma signed_run_sends baseUrl key va action w :
  sent (snd (signed_run env baseUrl key va action w)) <> sent w.
Proof. cbn. apply app_grows. Qed.

End Unknown.

(** X9. An operation the description does not offer is answered with
    [undefined] for every item, without a request and without an error;
    every operation it offers either fails or sends a request. *)
Theorem offered_operations_are_the_handled_ones :
  forall (E : Ethers) (env : Env) (operation : string)
         (credentials : Credentials) (derived : string),
    Wallet_address (privateKey credentials) = inr derived ->
    (~ In operation Description.operations ->
       forall items w,
         execute env operation credentials items w
         = (inr [undefined_entries (List.length items)], w))
    /\ (In operation Description.operations ->
          forall baseUrl key va address p w,
            let rw := run_operation env operation baseUrl key va address
                                    p w in
            (exists e, fst rw = inl e) \/ sent (snd rw) <> sent w).
Proof.
  intros E env operation credentials derived W. split.
  - intros N items w. unfold execute, bind. rewrite W. cbn [ret].
    rewrite (loop_undefined env _ _ _ _ _ _ N). reflexivity.
  - intros I baseUrl key va address p w rw. subst rw.
    destruct (run_operation_cases env operation baseUrl key va address p)
      as [[_ ->] | [[_ ->] | [[_ ->] | [[_ (b & _ & ->)] | (N & _)]]]].
    + rewrite placeOrder_eq. unfold placeOrder_cases.
      destruct (includes ":" (asset p)); [ | left; eexists; reflexivity ].
      destruct (orderType p =? "limit")%string.
      * destruct (price p =? "")%string;
          [ left; eexists; reflexivity | right; apply signed_run_sends ].
      * right. cbv zeta.
        destruct (answer env (allMids_request baseUrl) w);
          [ apply app_grows | ].
        destruct (Get j (asset p)); [ apply app_grows | ].
        destruct (ToBoolean j0); [ | apply app_grows ].
        destruct (ToString j0); [ | apply app_grows ].
        cbn [signed_run snd post sent tick]. rewrite <- app_assoc.
        apply app_grows.
    + right. rewrite cancelOrder_eq. apply signed_run_sends.
    + right. rewrite cancelAllOrders_eq. apply signed_run_sends.
    + right. rewrite helpers_request_eq. apply app_grows.
    + contradiction.
Qed.

Section ReadOnly.

Context {E : Ethers}.
Variable env : Env.

Lemma unsigned_item operation baseUrl key va address p w :
  ~ signed_operation operation ->
  let rw := run_operation env operation baseUrl key va address p w in
  ticks (snd rw) = ticks w
  /\ exists new,
       sent (snd rw) = (sent w ++ new)%list
       /\ (List.length new <= 1)%nat
       /\ exchange_requests baseUrl new = [].
Proof.
  intros N rw. subst rw. unfold signed_operation in N.
  destruct (run_operation_cases env operation baseUrl key va address p)
    as [[-> _] | [[-> _] | [[-> _] | [[_ (b & _ & ->)] | (_ & _ & ->)]]]];
    try (exfalso; tauto).
  - rewrite helpers_request_eq. split; [ reflexivity | ].
    exists [info_request baseUrl b]. split; [ reflexivity | ].
    split; [ cbn; lia | apply filter_info_request ].
  - split; [ reflexivity | ]. exists []. cbn. rewrite app_nil_r.
    split; [ reflexivity | ]. split; [ lia | reflexivity ].
Qed.

Lemma filter_app_nil baseUrl a b :
  exchange_requests baseUrl a = [] -> exchange_requests baseUrl b = [] ->
  exchange_requests baseUrl (a ++ b) = [].
Proof.
  unfold exchange_requests. intros A B. rewrite filter_app, A, B. reflexivity.
Qed.

Lemma loop_unsigned operation baseUrl key va address items :
  ~ signed_operation operation ->
  forall i returnData w,
    let w' := snd (loop env operation baseUrl key va address i items
                        returnData w) in
    ticks w' = ticks w
    /\ exists new,
         sent w' = (sent w ++ new)%list
         /\ (List.length new <= List.length items)%nat
         /\ exchange_requests baseUrl new = [].
Proof.
  intros N. induction items as [ | p rest IH ]; intros i returnData w w';
    subst w'.
  - cbn. split; [ reflexivity | ]. exists []. rewrite app_nil_r.
    split; [ reflexivity | ]. split; [ cbn; lia | reflexivity ].
  - cbn [loop]. unfold bind at 1, try_catch, bind.
    destruct (unsigned_item operation baseUrl key va address p w N)
      as (T1 & new & S1 & L1 & X1).
    destruct (run_operation env operation baseUrl key va address p w)
      as [[e | v] w1]; cbn [snd fst ret] in *.
    + destruct (continueOnFail env); cbn [ret throw snd fst].
      * destruct (IH (S i) (returnData ++ [error_entry i e])%list w1)
          as (T2 & new' & S2 & L2 & X2).
        split; [ congruence | ].
        exists (new ++ new')%list. rewrite S2, S1, <- app_assoc.
        split; [ reflexivity | ].
        split; [ rewrite length_app; cbn [List.length]; lia | ].
        apply filter_app_nil; assumption.
      * split; [ exact T1 | ]. exists new. split; [ exact S1 | ].
        split; [ cbn [List.length]; lia | exact X1 ].
    + destruct (IH (S i)
                   (returnData ++ [{| json := v; pairedItem := i |}])%list w1)
        as (T2 & new' & S2 & L2 & X2).
      split; [ congruence | ].
      exists (new ++ new')%list. rewrite S2, S1, <- app_assoc.
      split; [ reflexivity | ].
      split; [ rewrite length_app; cbn [List.length]; lia | ].
      apply filter_app_nil; assumption.
Qed.

End ReadOnly.

(** X10. Under any operation other than placeOrder, cancelOrder and
    cancelAllOrders an invocation posts nothing to [/exchange], reads
    no clock and sends at most one request per item. *)
Theorem unsigned_operations_never_trade :
  forall (E : Ethers) (env : Env) (operation : string)
         (credentials : Credentials) (items : list Params) (w : World),
    ~ signed_operation operation ->
    let w' := snd (execute env operation credentials items w) in
    ticks w' = ticks w
    /\ exists new,
         sent w' = (sent w ++ new)%list
         /\ (List.length new <= List.length items)%nat
         /\ exchange_requests (baseUrl_of (network credentials)) new = [].
Proof.
  intros E env operation credentials items w N w'. subst w'.
  unfold execute, bind.
  destruct (Wallet_address (privateKey credentials)) as [m | derived].
  - cbn. split; [ reflexivity | ]. exists []. rewrite app_nil_r.
    split; [ reflexivity | ]. split; [ cbn; lia | reflexivity ].
  - cbn [ret].
    pose proof (loop_unsigned env operation
                  (baseUrl_of (network credentials))
                  (privateKey credentials)
                  (of_option (vaultAddress credentials))
                  (effective_address credentials derived) items N 0%nat [] w)
      as X.
    cbv zeta in X.
    destruct (loop env operation _ _ _ _ 0%nat items [] w) as [[e | out] w'];
      exact X.
Qed.

Lemma substring_split (s : string) : forall a b,
  substring 0 a s ++ substring a b s = substring 0 (a + b) s.
Proof.
  induction s as [ | c s IH ]; intros a b.
  - destruct a, b; reflexivity.
  - destruct a as [ | a ].
    + destruct b; reflexivity.
    + cbn [substring Nat.add append]. rewrite IH. reflexivity.
Qed.

Lemma substring_all (s : string) : forall n,
  (String.length s <= n)%nat -> substring 0 n s = s.
Proof.
  induction s as [ | c s IH ]; intros n H.
  - destruct n; reflexivity.
  - destruct n as [ | n ]; cbn in H; [ lia | ].
    cbn [substring]. rewrite IH by lia. reflexivity.
Qed.

Lemma append_assoc_string (a b c : string) : (a ++ b) ++ c = a ++ b ++ c.
Proof. induction a as [ | x a IH ]; cbn; [ | rewrite IH ]; reflexivity. Qed.

Lemma of_Z_is_of_decimal (n : Z) : 0 <= n -> of_Z n = of_decimal false n 0.
Proof.
  intros H. destruct n as [ | p | p ]; [ reflexivity | | lia ].
  unfold of_Z, of_decimal, of_decimal_pos.
  change (Zpos p * 10 ^ 0) with (Zpos (p * 1)). rewrite Pos.mul_1_r.
  reflexivity.
Qed.

Lemma of_Z_exact (n : Z) : 0 <= n < 2 ^ 53 -> to_Z (of_Z n) = Some n.
Proof.
  intros H. rewrite of_Z_is_of_decimal by lia.
  rewrite of_decimal_exact by exact H. reflexivity.
Qed.

Lemma parseInt_two_hex_digits (c1 c2 : ascii) :
  is_hex c1 = true -> is_hex c2 = true ->
  parseInt (String c1 (String c2 EmptyString)) 16
  = of_Z (16 * hex_value c1 + hex_value c2).
Proof.
  intros H1 H2.
  destruct c1 as [[] [] [] [] [] [] [] []]; try discriminate H1;
    destruct c2 as [[] [] [] [] [] [] [] []]; try discriminate H2;
    vm_compute; reflexivity.
Qed.

Lemma hex_value_range (c : ascii) :
  is_hex c = true -> 0 <= hex_value c <= 15.
Proof.
  unfold is_hex, hex_value.
  destruct (digit_value c) as [d | ] eqn:D; [ | discriminate ].
  intros L. apply Z.ltb_lt in L. split; [ | lia ].
  revert D. unfold digit_value.
  destruct ((48 <=? code c) && (code c <=? 57)) eqn:A;
    [ intros [= <-]; lia | ].
  destruct ((97 <=? code c) && (code c <=? 122)) eqn:B;
    [ intros [= <-]; lia | ].
  destruct ((65 <=? code c) && (code c <=? 90)) eqn:C;
    [ intros [= <-]; lia | discriminate ].
Qed.

(** X11. The three parts cut the signature without loss: [r], [s]
    without its "0x" and the last two characters are the first 132
    characters of the signature (all of it when it has 132), and [v] is
    the number the two last hexadecimal digits denote, between 0 and
    255. *)
Theorem signature_parts_partition_the_signature :
  forall (signature : string),
  exists r s v,
    signature_parts signature
    = JObj [("r", JStr r); ("s", JStr ("0x" ++ s)); ("v", JNum v)]
    /\ r ++ s ++ slice 130 132 signature = substring 0 132 signature
    /\ (String.length signature = 132%nat ->
        r ++ s ++ slice 130 132 signature = signature)
    /\ (forall c1 c2,
           slice 130 132 signature = String c1 (String c2 EmptyString) ->
           is_hex c1 = true -> is_hex c2 = true ->
           v = of_Z (16 * hex_value c1 + hex_value c2)
           /\ to_Z v = Some (16 * hex_value c1 + hex_value c2)
           /\ 0 <= 16 * hex_value c1 + hex_value c2 <= 255).
Proof.
  intros signature.
  exists (slice 0 66 signature), (slice 66 130 signature),
         (parseInt (slice 130 132 signature) 16).
  split; [ reflexivity | ].
  assert (P : slice 0 66 signature ++ slice 66 130 signature
              ++ slice 130 132 signature = substring 0 132 signature).
  { unfold slice. cbn [Nat.sub].
    rewrite <- append_assoc_string, (substring_split signature 66 64).
    change (66 + 64)%nat with 130%nat.
    rewrite (substring_split signature 130 2). reflexivity. }
  split; [ exact P | ]. split.
  - intros L. rewrite P. apply substring_all. lia.
  - intros c1 c2 S H1 H2. rewrite S.
    pose proof (hex_value_range c1 H1). pose proof (hex_value_range c2 H2).
    rewrite (parseInt_two_hex_digits c1 c2 H1 H2).
    split; [ reflexivity | ]. split; [ | lia ].
    apply of_Z_exact. change (2 ^ 53) with 9007199254740992. lia.
Qed.

(** X12. With no vault address (absent or empty) the signed text and
    the posted body are those of the objects without a [vaultAddress]
    member; with one, the member is the quoted address in both. *)
Theorem unset_vault_is_left_out :
  forall (E : Ethers) (credentials : Credentials) (action : jsval)
         (ts : number) (signature : string),
    let va := of_option (vaultAddress credentials) in
    (unset (vaultAddress credentials) ->
       JSON_stringify (signed_message va action ts)
       = JSON_stringify (JObj [("action", action); ("nonce", JNum ts)])
       /\ JSON_stringify (exchange_body va action ts signature)
          = JSON_stringify (JObj [("action", action); ("nonce", JNum ts);
                                  ("signature", signature_parts signature)]))
    /\ (forall v, is_set (vaultAddress credentials) v ->
          text_of (field "vaultAddress" (signed_message va action ts))
          = Some (QuoteJSONString v)
          /\ text_of (field "vaultAddress"
                        (exchange_body va action ts signature))
             = Some (QuoteJSONString v)).
Proof.
  intros E credentials action ts signature va. subst va. split.
  - intros U. unfold signed_message, exchange_body, or.
    rewrite (unset_falsy _ U). split; reflexivity.
  - intros v S. unfold signed_message, exchange_body, or.
    destruct (is_set_truthy _ _ S) as [T R]. rewrite T, R.
    split; reflexivity.
Qed.

(** X13. The credential test posts to [/info] of the host the node
    uses for the same credential: the testnet host for the network
    "testnet" exactly, the mainnet host for anything else. *)
Theorem credential_test_asks_the_node_host :
  forall (credentials : Credentials),
    let t := HyperliquidApi.test credentials in
    HyperliquidApi.baseURL t = baseUrl_of (network credentials)
    /\ HyperliquidApi.baseURL t ++ HyperliquidApi.url t
       = url (allMids_request (baseUrl_of (network credentials)))
    /\ HyperliquidApi.method t = method (allMids_request "")
    /\ (network credentials = "testnet" ->
        HyperliquidApi.baseURL t = "https://api.hyperliquid-testnet.xyz")
    /\ (network credentials <> "testnet" ->
        HyperliquidApi.baseURL t = "https://api.hyperliquid.xyz").
Proof.
  intros credentials t. subst t. unfold HyperliquidApi.test, baseUrl_of.
  cbn [HyperliquidApi.baseURL HyperliquidApi.url HyperliquidApi.method].
  split; [ reflexivity | ]. split; [ reflexivity | ].
  split; [ reflexivity | ].
  destruct (String.eqb_spec (network credentials) "testnet"); split;
    intros; try reflexivity; contradiction.
Qed.

(** X14. Processing the items [xs ++ ys] is processing [xs] and then
    [ys], from the world and the output [xs] left and with the indices
    continued; an error that ends [xs] keeps [ys] from running. *)
Theorem batch_splits :
  forall (E : Ethers) (env : Env) (operation baseUrl key : string)
         (va address : jsval) (xs ys : list Params) (i : nat)
         (returnData : list INodeExecutionData) (w : World),
    loop env operation baseUrl key va address i (xs ++ ys) returnData w
    = match loop env operation baseUrl key va address i xs returnData w with
      | (inr returnData', w') =>
          loop env operation baseUrl key va address (i + List.length xs) ys
               returnData' w'
      | (inl e, w') => (inl e, w')
      end.
Proof.
  intros E env operation baseUrl key va address xs ys.
  induction xs as [ | p rest IH ]; intros i returnData w.
  - cbn. rewrite Nat.add_0_r. reflexivity.
  - cbn [app loop List.length]. unfold bind at 1 3.
    destruct (try_catch _ _ w) as [[e | returnData'] w'].
    + reflexivity.
    + rewrite IH, Nat.add_succ_r. reflexivity.
Qed.

Section Override.

Context {E : Ethers}.
Variable env : Env.

Lemma run_operation_ignores_address operation baseUrl key va address address'
      p :
  ~ In operation (map fst address_queries) ->
  run_operation env operation baseUrl key va address p
  = run_operation env operation baseUrl key va address' p.
Proof.
  intros N.
  destruct (run_operation_cases env operation baseUrl key va address p)
    as [[-> _] | [[-> _] | [[-> _] | [[Q _] | (U & _ & R)]]]];
    try reflexivity.
  - cbn [is_query In] in Q.
    destruct Q as [<- | [<- | [<- | [<- | [<- | [<- | []]]]]]];
      try reflexivity; exfalso; apply N; cbn; tauto.
  - rewrite R.
    destruct (run_operation_cases env operation baseUrl key va address' p)
      as [[-> _] | [[-> _] | [[-> _] | [[Q _] | (_ & _ & ->)]]]];
      try reflexivity; exfalso; apply U; cbn; cbn [is_query In] in *; tauto.
Qed.

Lemma loop_ignores_address operation baseUrl key va address address' items :
  ~ In operation (map fst address_queries) ->
  forall i returnData w,
    loop env operation baseUrl key va address i items returnData w
    = loop env operation baseUrl key va address' i items returnData w.
Proof.
  intros N. induction items as [ | p rest IH ]; intros i returnData w.
  - reflexivity.
  - cbn [loop]. unfold bind at 1 3.
    rewrite (run_operation_ignores_address operation baseUrl key va
               address address' p N).
    destruct (try_catch _ _ w) as [[e | returnData'] w'];
      [ reflexivity | apply IH ].
Qed.

End Override.

(** X15. The wallet address override plays no part outside the four
    user queries: credentials that differ in it alone give the same
    invocation of every other operation, orders included. *)
Theorem wallet_override_matters_to_user_queries_only :
  forall (E : Ethers) (env : Env) (operation : string)
         (credentials credentials' : Credentials) (items : list Params)
         (w : World),
    ~ In operation (map fst address_queries) ->
    privateKey credentials = privateKey credentials' ->
    network credentials = network credentials' ->
    vaultAddress credentials = vaultAddress credentials' ->
    execute env operation credentials items w
    = execute env operation credentials' items w.
Proof.
  intros E env operation credentials credentials' items w N K T V.
  unfold execute, bind. rewrite <- K, <- T, <- V.
  destruct (Wallet_address (privateKey credentials)) as [m | derived];
    [ reflexivity | ].
  cbn [ret].
  rewrite (loop_ignores_address env operation _ _ _
             (effective_address credentials derived)
             (effective_address credentials' derived) items N).
  reflexivity.
Qed.


Section Nonces.

Context {E : Ethers}.
Variable env : Env.

Lemma nonces_from_app k a b :
  nonces_from env k (a + b)
  = (nonces_from env k a ++ nonces_from env (k + a) b)%list.
Proof. unfold nonces_from. rewrite seq_app, map_app. reflexivity. Qed.

Lemma carries_refl baseUrl w : carries_clock_readings env baseUrl w w.
Proof.
  split; [ lia | ]. exists []. rewrite app_nil_r, Nat.sub_diag.
  split; reflexivity.
Qed.

Lemma carries_trans baseUrl w1 w2 w3 :
  carries_clock_readings env baseUrl w1 w2 ->
  carries_clock_readings env baseUrl w2 w3 ->
  carries_clock_readings env baseUrl w1 w3.
Proof.
  intros (T1 & n1 & S1 & N1) (T2 & n2 & S2 & N2). split; [ lia | ].
  exists (n1 ++ n2)%list. rewrite S2, S1, <- app_assoc.
  split; [ reflexivity | ].
  unfold exchange_requests in *. rewrite filter_app, map_app, N1, N2.
  replace (ticks w3 - ticks w1)%nat
    with ((ticks w2 - ticks w1) + (ticks w3 - ticks w2))%nat by lia.
  rewrite nonces_from_app.
  replace (ticks w1 + (ticks w2 - ticks w1))%nat with (ticks w2) by lia.
  reflexivity.
Qed.

Lemma carries_post_info baseUrl b w :
  carries_clock_readings env baseUrl w (post (info_request baseUrl b) w).
Proof.
  split; [ cbn; lia | ]. exists [info_request baseUrl b].
  split; [ reflexivity | ]. rewrite filter_info_request.
  cbn [post ticks]. rewrite Nat.sub_diag. reflexivity.
Qed.

Lemma carries_signed_run baseUrl key va action w :
  carries_clock_readings env baseUrl w
    (snd (signed_run env baseUrl key va action w)).
Proof.
  split; [ cbn; lia | ].
  exists [exchange_request baseUrl key va action (now env w)].
  split; [ reflexivity | ].
  unfold exchange_requests. cbn [filter url exchange_request].
  rewrite String.eqb_refl. cbn [signed_run snd post tick ticks map].
  replace (S (ticks w) - ticks w)%nat with 1%nat by lia. reflexivity.
Qed.

Lemma carries_item operation baseUrl key va address p w :
  operation <> "placeOrder" ->
  carries_clock_readings env baseUrl w
    (snd (run_operation env operation baseUrl key va address p w)).
Proof.
  intros N.
  destruct (run_operation_cases env operation baseUrl key va address p)
    as [[O _] | [[_ ->] | [[_ ->] | [[_ (b & _ & ->)] | (_ & _ & ->)]]]].
  - contradiction.
  - rewrite cancelOrder_eq. apply carries_signed_run.
  - rewrite cancelAllOrders_eq. apply carries_signed_run.
  - rewrite helpers_request_eq. apply carries_post_info.
  - apply carries_refl.
Qed.

Lemma carries_loop operation baseUrl key va address items :
  operation <> "placeOrder" ->
  forall i returnData w,
    carries_clock_readings env baseUrl w
      (snd (loop env operation baseUrl key va address i items returnData w)).
Proof.
  intros N.
  induction items as [ | p rest IH ]; intros i returnData w.
  - apply carries_refl.
  - cbn [loop]. unfold bind at 1, try_catch, bind.
    pose proof (carries_item operation baseUrl key va address p w N) as One.
    destruct (run_operation env operation baseUrl key va address p w)
      as [[e | v] w1]; cbn [snd fst ret] in *.
    + destruct (continueOnFail env); cbn [ret throw snd fst].
      * exact (carries_trans _ _ _ _ One (IH _ _ _)).
      * exact One.
    + exact (carries_trans _ _ _ _ One (IH _ _ _)).
Qed.

Lemma readings_app ks1 : forall lo mid hi ks2,
  readings lo mid ks1 -> readings mid hi ks2 ->
  readings lo hi (ks1 ++ ks2).
Proof.
  induction ks1 as [ | k ks1 IH ]; intros lo mid hi ks2 R1 R2.
  - cbn [app]. cbn [readings] in R1.
    destruct ks2 as [ | k2 ks2 ]; cbn [readings] in *.
    + lia.
    + destruct R2 as [L R2]. split; [ lia | exact R2 ].
  - cbn [app readings] in *. destruct R1 as [L R1].
    split; [ exact L | exact (IH _ _ _ _ R1 R2) ].
Qed.

Lemma readings_seq n : forall lo, readings lo (lo + n) (seq lo n).
Proof.
  induction n as [ | n IH ]; intros lo; cbn [seq readings].
  - lia.
  - split; [ lia | ].
    replace (lo + S n)%nat with (S lo + n)%nat by lia. apply IH.
Qed.

Lemma follow_refl baseUrl w : nonces_follow_the_clock env baseUrl w w.
Proof.
  exists [], []. rewrite app_nil_r. split; [ reflexivity | ].
  split; [ cbn; lia | reflexivity ].
Qed.

Lemma follow_trans baseUrl w1 w2 w3 :
  nonces_follow_the_clock env baseUrl w1 w2 ->
  nonces_follow_the_clock env baseUrl w2 w3 ->
  nonces_follow_the_clock env baseUrl w1 w3.
Proof.
  intros (n1 & k1 & S1 & R1 & N1) (n2 & k2 & S2 & R2 & N2).
  exists (n1 ++ n2)%list, (k1 ++ k2)%list.
  rewrite S2, S1, <- app_assoc. split; [ reflexivity | ].
  split; [ exact (readings_app _ _ _ _ _ R1 R2) | ].
  unfold exchange_requests in *. rewrite filter_app, !map_app, N1, N2.
  reflexivity.
Qed.

Lemma follow_carries baseUrl w w' :
  carries_clock_readings env baseUrl w w' ->
  nonces_follow_the_clock env baseUrl w w'.
Proof.
  intros (T & new & S1 & N).
  exists new, (seq (ticks w) (ticks w' - ticks w)).
  split; [ exact S1 | ]. split; [ | exact N ].
  replace (ticks w') with (ticks w + (ticks w' - ticks w))%nat at 1 by lia.
  apply readings_seq.
Qed.

Lemma follow_tick baseUrl w : nonces_follow_the_clock env baseUrl w (tick w).
Proof.
  exists [], []. rewrite app_nil_r. split; [ reflexivity | ].
  split; [ cbn; lia | reflexivity ].
Qed.

Lemma follow_placeOrder baseUrl key va p w :
  nonces_follow_the_clock env baseUrl w
    (snd (placeOrder env baseUrl key va p w)).
Proof.
  rewrite placeOrder_eq. unfold placeOrder_cases.
  destruct (includes ":" (asset p)); [ | apply follow_tick ].
  destruct (orderType p =? "limit")%string.
  - destruct (price p =? "")%string;
      [ apply follow_tick
      | apply follow_carries, carries_signed_run ].
  - cbv zeta.
    pose proof (follow_carries _ _ _
                  (carries_post_info baseUrl
                     (JObj [("type", JStr "allMids")]) w))
      as One.
    fold (allMids_request baseUrl) in One.
    destruct (answer env (allMids_request baseUrl) w) as [e | marketInfo];
      [ exact One | ].
    destruct (Get marketInfo (asset p)) as [e | midPrice]; [ exact One | ].
    destruct (ToBoolean midPrice);
      [ | exact (follow_trans _ _ _ _ One (follow_tick _ _)) ].
    destruct (ToString midPrice) as [text | ]; [ | exact One ].
    exact (follow_trans _ _ _ _ One
             (follow_carries _ _ _ (carries_signed_run _ _ _ _ _))).
Qed.

Lemma follow_item operation baseUrl key va address p w :
  nonces_follow_the_clock env baseUrl w
    (snd (run_operation env operation baseUrl key va address p w)).
Proof.
  destruct (String.eqb_spec operation "placeOrder") as [-> | N].
  - apply follow_placeOrder.
  - apply follow_carries, carries_item, N.
Qed.

Lemma follow_loop operation baseUrl key va address items :
  forall i returnData w,
    nonces_follow_the_clock env baseUrl w
      (snd (loop env operation baseUrl key va address i items returnData w)).
Proof.
  induction items as [ | p rest IH ]; intros i returnData w.
  - apply follow_refl.
  - cbn [loop]. unfold bind at 1, try_catch, bind.
    pose proof (follow_item operation baseUrl key va address p w) as One.
    destruct (run_operation env operation baseUrl key va address p w)
      as [[e | v] w1]; cbn [snd fst ret] in *.
    + destruct (continueOnFail env); cbn [ret throw snd fst].
      * exact (follow_trans _ _ _ _ One (IH _ _ _)).
      * exact One.
    + exact (follow_trans _ _ _ _ One (IH _ _ _)).
Qed.

End Nonces.

(** A failed check takes a reading of the clock for the time stamp of
    its error: the order that follows it in the batch carries the next
    reading. *)
Example order_after_a_failed_check :
  map nonce_of
      (exchange_requests "https://api.hyperliquid.xyz"
         (sent (snd (Fixture.run (Fixture.api true) "placeOrder" Fixture.main
                       [Fixture.with_asset "XYZ100" Fixture.params;
                        Fixture.with_limit "1" Fixture.params]))))
  = [Some (JNum (of_Z 1730000000001))].
Proof. vm_compute. reflexivity. Qed.

(** X17. Every request posted to [/exchange] carries as its nonce a
    reading of the clock taken during the run, a later reading than the
    request before it; the readings left out in between are the time
    stamps of the errors that placeOrder constructs. For every other
    operation the clock is read once per request posted to [/exchange]
    and the nonces are, in order, the successive readings. Nothing
    makes nonces differ: on a clock that stands still every order
    carries the same nonce. *)
Theorem nonces_are_the_clock_readings :
  forall (E : Ethers) (env : Env) (operation : string)
         (credentials : Credentials) (items : list Params) (w : World),
    let baseUrl := baseUrl_of (network credentials) in
    let w' := snd (execute env operation credentials items w) in
    nonces_follow_the_clock env baseUrl w w'
    /\ (operation <> "placeOrder" ->
        carries_clock_readings env baseUrl w w')
    /\ (forall c, (forall k, clock env k = c) ->
          forall new r,
            sent w' = (sent w ++ new)%list ->
            In r (exchange_requests baseUrl new) ->
            nonce_of r = Some (JNum (of_Z c))).
Proof.
  intros E env operation credentials items w baseUrl w'.
  assert (C : nonces_follow_the_clock env baseUrl w w').
  { subst w' baseUrl. unfold execute, bind.
    destruct (Wallet_address (privateKey credentials)) as [m | derived];
      [ apply follow_refl | ].
    cbn [ret].
    pose proof (follow_loop env operation (baseUrl_of (network credentials))
                  (privateKey credentials)
                  (of_option (vaultAddress credentials))
                  (effective_address credentials derived) items 0%nat [] w)
      as X.
    destruct (loop env operation _ _ _ _ 0%nat items [] w) as [[e | out] w2];
      exact X. }
  split; [ exact C | ]. split.
  - intros N. subst w' baseUrl. unfold execute, bind.
    destruct (Wallet_address (privateKey credentials)) as [m | derived];
      [ apply carries_refl | ].
    cbn [ret].
    pose proof (carries_loop env operation (baseUrl_of (network credentials))
                  (privateKey credentials)
                  (of_option (vaultAddress credentials))
                  (effective_address credentials derived) items N 0%nat [] w)
      as X.
    destruct (loop env operation _ _ _ _ 0%nat items [] w) as [[e | out] w2];
      exact X.
  - intros c K new r S I.
    destruct C as (new' & ks & S' & _ & N).
    rewrite S' in S. apply app_inv_head in S. subst new'.
    apply (in_map nonce_of) in I. rewrite N in I.
    apply in_map_iff in I.
    destruct I as (k & <- & _). unfold nonce_at. rewrite K. reflexivity.
Qed.

Lemma hidden_parameters_are_ignored_witness :
  agree_on_displayed "cancelOrder" Samples.cancel_a Samples.cancel_b
  /\ run_operation (E := Fixture.ethers) (Fixture.api false) "cancelOrder"
       "u" "k" JUndefined JNull Samples.cancel_a
     = run_operation (E := Fixture.ethers) (Fixture.api false) "cancelOrder"
         "u" "k" JUndefined JNull Samples.cancel_b.
Proof.
  assert (A : agree_on_displayed "cancelOrder" Samples.cancel_a
                Samples.cancel_b).
  { intros prop I. cbn [Description.properties In] in I.
    repeat destruct I as [<- | I]; try contradiction;
      cbn; intros D; try reflexivity; discriminate D. }
  split; [ exact A | ].
  exact (hidden_parameters_are_ignored Fixture.ethers (Fixture.api false)
           "cancelOrder" "u" "k" JUndefined JNull
           Samples.cancel_a Samples.cancel_b A).
Defined.

Lemma market_order_without_mid_price_witness :
  run_operation (E := Fixture.ethers)
    (Samples.quoting (JObj [("abc:ABC", JStr "3")])) "placeOrder"
    "u" "k" JUndefined JNull Fixture.params initial
  = (inl (NodeOperationError "Could not find mid price for xyz:XYZ100"),
     {| ticks := 1; sent := [allMids_request "u"] |}).
Proof.
  apply (market_order_without_mid_price Fixture.ethers
           (Samples.quoting (JObj [("abc:ABC", JStr "3")]))
           "u" "k" JUndefined JNull Fixture.params initial
           (JObj [("abc:ABC", JStr "3")]) JUndefined);
    try reflexivity.
  discriminate.
Defined.

Lemma local_error_posts_no_order_witness :
  (ticks (snd (run_operation (E := Fixture.ethers)
                 (Samples.quoting JNull) "placeOrder"
                 "u" "k" JUndefined JNull Fixture.params initial)) = 0%nat
   /\ exists new,
        sent (snd (run_operation (E := Fixture.ethers)
                     (Samples.quoting JNull) "placeOrder"
                     "u" "k" JUndefined JNull Fixture.params initial))
        = (sent initial ++ new)%list
        /\ exchange_requests "u" new = [])
  /\ ticks (snd (run_operation (E := Fixture.ethers)
                   (Fixture.api false) "placeOrder"
                   "u" "k" JUndefined JNull
                   (Fixture.with_asset "XYZ100" Fixture.params) initial))
     = 1%nat.
Proof.
  split.
  - apply (local_error_posts_no_order Fixture.ethers (Samples.quoting JNull)
             "placeOrder" "u" "k" JUndefined JNull Fixture.params initial
             (TypeError
                "Cannot read properties of null (reading 'xyz:XYZ100')")).
    + reflexivity.
    + exact I.
  - apply (local_error_posts_no_order Fixture.ethers (Fixture.api false)
             "placeOrder" "u" "k" JUndefined JNull
             (Fixture.with_asset "XYZ100" Fixture.params) initial
             asset_error).
    + reflexivity.
    + exact I.
Defined.

Lemma market_order_with_unreadable_mid_price_witness :
  run_operation (E := Fixture.ethers)
    (Samples.quoting (JObj [("xyz:XYZ100", JStr "n/a")])) "placeOrder"
    "u" "k" JUndefined JNull Fixture.params initial
  = signed_run (E := Fixture.ethers)
      (Samples.quoting (JObj [("xyz:XYZ100", JStr "n/a")]))
      "u" "k" JUndefined (order_action (order_of Fixture.params "NaN"))
      (post (allMids_request "u") initial).
Proof.
  apply (market_order_with_unreadable_mid_price Fixture.ethers
           (Samples.quoting (JObj [("xyz:XYZ100", JStr "n/a")]))
           "u" "k" JUndefined JNull Fixture.params initial
           (JObj [("xyz:XYZ100", JStr "n/a")]) (JStr "n/a") "n/a");
    try reflexivity.
  discriminate.
Defined.

Lemma unlisted_order_type_rests_at_market_price_witness :
  run_operation (E := Fixture.ethers) (Samples.quoting Fixture.mids)
    "placeOrder" "u" "k" JUndefined JNull Samples.stop_order initial
  = signed_run (E := Fixture.ethers) (Samples.quoting Fixture.mids)
      "u" "k" JUndefined
      (order_action (order_of Samples.stop_order "105"))
      (post (allMids_request "u") initial)
  /\ tif_of (order_of Samples.stop_order "105") = Some (JStr "Gtc").
Proof.
  pose proof (unlisted_order_type_rests_at_market_price Fixture.ethers
                (Samples.quoting Fixture.mids) "u" "k" JUndefined JNull
                Samples.stop_order initial Fixture.mids (JStr "100") "100")
    as X.
  destruct X as (R & _ & T); try reflexivity; try discriminate.
  split; [ exact R | exact T ].
Defined.

Lemma invalid_key_stops_everything_witness :
  execute (E := Fixture.ethers) (Fixture.api true) "getPositions"
    {| privateKey := ""; walletAddress := Some "0xWWW";
       network := "mainnet"; vaultAddress := None |}
    [Fixture.params; Fixture.params] initial
  = (inl (EthersError "invalid private key"), initial).
Proof.
  apply (invalid_key_stops_everything Fixture.ethers (Fixture.api true)).
  reflexivity.
Defined.

Lemma offered_operations_are_the_handled_ones_witness :
  (~ In "closePosition" Description.operations
   /\ execute (E := Fixture.ethers) (Fixture.api false) "closePosition"
        Fixture.main [Fixture.params; Fixture.params] initial
      = (inr [undefined_entries 2], initial))
  /\ (In "getMarketInfo" Description.operations
      /\ ((exists e,
              fst (run_operation (E := Fixture.ethers) (Fixture.api false)
                     "getMarketInfo" "u" "k" JUndefined JNull
                     Fixture.params initial) = inl e)
          \/ sent (snd (run_operation (E := Fixture.ethers)
                          (Fixture.api false) "getMarketInfo" "u" "k"
                          JUndefined JNull Fixture.params initial))
             <> sent initial)).
Proof.
  assert (N : ~ In "closePosition" Description.operations).
  { cbn. intros H. repeat destruct H as [H | H]; try discriminate H.
    exact H. }
  assert (I : In "getMarketInfo" Description.operations).
  { cbn. tauto. }
  destruct (offered_operations_are_the_handled_ones Fixture.ethers
              (Fixture.api false) "closePosition" Fixture.main "0xKEY"
              eq_refl) as [U _].
  destruct (offered_operations_are_the_handled_ones Fixture.ethers
              (Fixture.api false) "getMarketInfo" Fixture.main "0xKEY"
              eq_refl) as [_ H].
  split.
  - split; [ exact N | ]. exact (U N [Fixture.params; Fixture.params] initial).
  - split; [ exact I | ].
    exact (H I "u" "k" JUndefined JNull Fixture.params initial).
Defined.

Lemma unsigned_operations_never_trade_witness :
  ~ signed_operation "getOrderBook"
  /\ ticks (snd (Fixture.run (Fixture.api false) "getOrderBook" Fixture.main
                   [Fixture.params; Fixture.params])) = 0%nat.
Proof.
  assert (N : ~ signed_operation "getOrderBook").
  { intros [H | [H | H]]; discriminate H. }
  split; [ exact N | ].
  apply (unsigned_operations_never_trade Fixture.ethers (Fixture.api false)
           "getOrderBook" Fixture.main [Fixture.params; Fixture.params]
           initial N).
Defined.

Lemma signature_parts_partition_the_signature_witness :
  exists r s v,
    signature_parts (signMessage (Ethers := Fixture.ethers) "k" [])
    = JObj [("r", JStr r); ("s", JStr ("0x" ++ s)); ("v", JNum v)]
    /\ r ++ s ++ "1b" = signMessage (Ethers := Fixture.ethers) "k" []
    /\ to_Z v = Some 27.
Proof.
  destruct (signature_parts_partition_the_signature
              (signMessage (Ethers := Fixture.ethers) "k" []))
    as (r & s & v & P & _ & W & V).
  exists r, s, v. split; [ exact P | ]. split.
  - apply W. reflexivity.
  - apply (V "1"%char "b"%char); reflexivity.
Defined.

Lemma unset_vault_is_left_out_witness :
  JSON_stringify
    (signed_message (of_option (vaultAddress Fixture.main)) JNull (of_Z 7))
  = JSON_stringify (JObj [("action", JNull); ("nonce", JNum (of_Z 7))])
  /\ text_of (field "vaultAddress"
                (signed_message (of_option (vaultAddress Fixture.vault))
                   JNull (of_Z 7)))
     = Some (QuoteJSONString "0xVVV").
Proof.
  destruct (unset_vault_is_left_out Fixture.ethers Fixture.main JNull
              (of_Z 7) EmptyString) as [U _].
  destruct (unset_vault_is_left_out Fixture.ethers Fixture.vault JNull
              (of_Z 7) EmptyString) as [_ S].
  split.
  - apply U. right. reflexivity.
  - apply (S "0xVVV"). split; [ reflexivity | discriminate ].
Defined.

Lemma wallet_override_matters_to_user_queries_only_witness :
  execute (E := Fixture.ethers) (Fixture.api false) "placeOrder"
    {| privateKey := "k"; walletAddress := Some "0xWWW";
       network := "testnet"; vaultAddress := None |}
    [Fixture.params] initial
  = execute (E := Fixture.ethers) (Fixture.api false) "placeOrder"
      {| privateKey := "k"; walletAddress := None;
         network := "testnet"; vaultAddress := None |}
      [Fixture.params] initial.
Proof.
  apply (wallet_override_matters_to_user_queries_only Fixture.ethers
           (Fixture.api false) "placeOrder"); try reflexivity.
  cbn. intros H. repeat destruct H as [H | H]; try discriminate H. exact H.
Defined.


Lemma nonces_are_the_clock_readings_witness :
  List.length
    (exchange_requests "https://api.hyperliquid.xyz"
       (sent (snd (Fixture.run (Samples.frozen true) "cancelOrder"
                     Fixture.main [Fixture.params; Fixture.params]))))
  = 2%nat
  /\ Forall (fun r => nonce_of r = Some (JNum (of_Z 1730000000000)))
       (exchange_requests "https://api.hyperliquid.xyz"
          (sent (snd (Fixture.run (Samples.frozen true) "cancelOrder"
                        Fixture.main [Fixture.params; Fixture.params])))).
Proof.
  split; [ reflexivity | ].
  apply Forall_forall. intros r I.
  destruct (nonces_are_the_clock_readings Fixture.ethers
              (Samples.frozen true) "cancelOrder" Fixture.main
              [Fixture.params; Fixture.params] initial) as (_ & _ & K).
  exact (K 1730000000000 (fun _ => eq_refl) _ r eq_refl I).
Defined.

Lemma credential_test_asks_the_node_host_witness :
  HyperliquidApi.baseURL (HyperliquidApi.test Fixture.vault)
  = "https://api.hyperliquid-testnet.xyz"
  /\ HyperliquidApi.baseURL
       (HyperliquidApi.test
          {| privateKey := "k"; walletAddress := None;
             network := "Testnet"; vaultAddress := None |})
     = "https://api.hyperliquid.xyz".
Proof.
  split.
  - apply (credential_test_asks_the_node_host Fixture.vault). reflexivity.
  - apply (credential_test_asks_the_node_host
             {| privateKey := "k"; walletAddress := None;
                network := "Testnet"; vaultAddress := None |}).
    discriminate.
Defined.

(* ===================================================================== *)
(** ** The order id, read by [parseInt] *)
(* ===================================================================== *)

Lemma code_range (c : ascii) : 0 <= code c < 256.
Proof.
  destruct c as [[] [] [] [] [] [] [] []]; vm_compute; split; congruence.
Qed.

Lemma digit_is_ascii (c : ascii) (d : Z) :
  digit_value c = Some d -> 48 <= code c <= 122.
Proof.
  unfold digit_value.
  destruct ((48 <=? code c) && (code c <=? 57)) eqn:A; [ intros _; lia | ].
  destruct ((97 <=? code c) && (code c <=? 122)) eqn:B; [ intros _; lia | ].
  destruct ((65 <=? code c) && (code c <=? 90)) eqn:C;
    [ intros _; lia | discriminate ].
Qed.

Lemma trim_start_app (u : string) :
  forall n s a r,
    (String.length s <= n)%nat ->
    trim_start s = String a r -> 33 <= code a < 128 ->
    trim_start (s ++ u) = String a r ++ u.
Proof.
  induction n as [ | n IH ]; intros s a r L T A.
  - destruct s; [ discriminate T | cbn in L; lia ].
  - destruct s as [ | a0 s1 ]; [ discriminate T | ].
    cbn [String.length] in L. cbn [trim_start append] in T |- *.
    destruct (ws1 (code a0)) eqn:W1.
    { apply (IH s1 a r); [ lia | exact T | exact A ]. }
    destruct s1 as [ | b s2 ].
    { injection T as <- <-. cbn [append].
      pose proof (trim_start_plain a0 u A) as P. cbn [trim_start] in P.
      rewrite W1 in P. exact P. }
    cbn [append].
    destruct (ws2 (code a0) (code b)) eqn:W2.
    { cbn [String.length] in L.
      apply (IH s2 a r); [ lia | exact T | exact A ]. }
    destruct s2 as [ | c s3 ].
    { injection T as <- <- . cbn [append].
      pose proof (trim_start_plain a0 (String b u) A) as P.
      cbn [trim_start] in P. rewrite W1, W2 in P. exact P. }
    cbn [append].
    destruct (ws3 (code a0) (code b) (code c)) eqn:W3.
    { cbn [String.length] in L.
      apply (IH s3 a r); [ lia | exact T | exact A ]. }
    injection T as <- <-. reflexivity.
Qed.

Lemma take_digits_app (R : Z) (u : string) :
  no_digit_ahead u ->
  forall s acc len,
    take_digits R (s ++ u) acc len
    = (fst (fst (take_digits R s acc len)),
       snd (fst (take_digits R s acc len)),
       snd (take_digits R s acc len) ++ u).
Proof.
  intros U. induction s as [ | c s IH ]; intros acc len.
  - cbn [append take_digits fst snd].
    destruct u as [ | c u ]; [ reflexivity | ].
    cbn in U. cbn [take_digits]. rewrite U. reflexivity.
  - cbn [append take_digits].
    destruct (digit_value c) as [d | ]; [ | reflexivity ].
    destruct (d <? R); [ apply IH | reflexivity ].
Qed.

Lemma take_sign_app (a : ascii) (r u : string) :
  take_sign (String a r ++ u)
  = (fst (take_sign (String a r)), snd (take_sign (String a r)) ++ u).
Proof.
  destruct a as [[] [] [] [] [] [] [] []]; reflexivity.
Qed.

(** The radix and the digits that follow an optional "0x". *)
Lemma strip_prefix_app (t u : string) :
  t <> EmptyString -> no_digit_ahead u ->
  match t ++ u with
  | String "0" (String "x" rest) => (16, rest)
  | String "0" (String "X" rest) => (16, rest)
  | _ => (10, t ++ u)
  end
  = (fst match t with
         | String "0" (String "x" rest) => (16, rest)
         | String "0" (String "X" rest) => (16, rest)
         | _ => (10, t)
         end,
     snd match t with
         | String "0" (String "x" rest) => (16, rest)
         | String "0" (String "X" rest) => (16, rest)
         | _ => (10, t)
         end ++ u).
Proof.
  intros N U. destruct t as [ | a t ]; [ contradiction | ].
  cbn [append].
  destruct a as [[] [] [] [] [] [] [] []]; try reflexivity.
  destruct t as [ | b t ].
  - cbn [append]. destruct u as [ | c u ]; [ reflexivity | ].
    cbn in U.
    destruct c as [[] [] [] [] [] [] [] []]; try reflexivity;
      discriminate U.
  - cbn [append]. destruct b as [[] [] [] [] [] [] [] []]; reflexivity.
Qed.

Lemma parseInt_math_app (s u : string) (v : bool * Z) :
  parseInt_math s 0 = Some v -> no_digit_ahead u ->
  parseInt_math (s ++ u) 0 = Some v.
Proof.
  intros P U. unfold parseInt_math in *.
  cbn [Z.eqb negb andb orb] in *.
  destruct (trim_start s) as [ | a r ] eqn:T.
  { cbn in P. discriminate P. }
  assert (A : 33 <= code a < 128).
  { revert P. clear T.
    destruct (take_sign (String a r)) as [sg t] eqn:S.
    assert (Sign : sg = true \/ sg = false) by (destruct sg; tauto).
    destruct (ascii_dec a "-") as [-> | N1]; [ intros _; vm_compute; split; congruence | ].
    destruct (ascii_dec a "+") as [-> | N2]; [ intros _; vm_compute; split; congruence | ].
    assert (t = String a r).
    { revert S. destruct a as [[] [] [] [] [] [] [] []]; cbn;
        intros [= _ <-]; try reflexivity; congruence. }
    subst t.
    destruct (digit_value a) as [d | ] eqn:D.
    - intros _. pose proof (digit_is_ascii a d D). lia.
    - intros P. exfalso. revert P.
      assert (F : forall R, take_digits R (String a r) 0 0
                            = (0, 0, String a r)).
      { intros R. cbn [take_digits]. rewrite D. reflexivity. }
      destruct a as [[] [] [] [] [] [] [] []]; try discriminate D;
        rewrite F; discriminate. }
  rewrite (trim_start_app u (String.length s) s a r (le_n _) T A).
  rewrite take_sign_app.
  destruct (take_sign (String a r)) as [sg t] eqn:S. cbn [fst snd] in *.
  destruct t as [ | b t ]; [ cbn in P; discriminate P | ].
  rewrite (strip_prefix_app (String b t) u ltac:(discriminate) U).
  destruct (match String b t with
            | String "0" (String "x" rest) => (16, rest)
            | String "0" (String "X" rest) => (16, rest)
            | _ => (10, String b t)
            end) as [R t1].
  cbn [fst snd]. rewrite (take_digits_app R u U t1 0 0).
  destruct (take_digits R t1 0 0) as [[mathInt len] rest].
  cbn [fst snd]. exact P.
Qed.

(* ===================================================================== *)
(** ** The signed text, read back *)
(* ===================================================================== *)

Lemma quote_chars_cons c s : quote_chars (String c s) = escape c ++ quote_chars s.
Proof.
  unfold escape. cbn [quote_chars].
  destruct c as [[] [] [] [] [] [] [] []]; reflexivity.
Qed.

Lemma unescape_escape c r : unescape (escape c ++ r) = Some (c, r).
Proof.
  destruct c as [[] [] [] [] [] [] [] []]; reflexivity.
Qed.

Lemma escape_not_quote c r u : escape c ++ r <> String (ascii_of_nat 34) u.
Proof.
  destruct c as [[] [] [] [] [] [] [] []]; discriminate.
Qed.

Lemma quote_chars_delimited :
  forall x y u v,
    quote_chars x ++ String (ascii_of_nat 34) u
    = quote_chars y ++ String (ascii_of_nat 34) v ->
    x = y /\ u = v.
Proof.
  induction x as [ | c x IH ]; intros [ | d y ] u v H.
  - cbn in H. injection H as H. split; [ reflexivity | exact H ].
  - exfalso. rewrite quote_chars_cons in H. cbn [quote_chars append] in H.
    rewrite append_assoc_string in H. symmetry in H.
    exact (escape_not_quote _ _ _ H).
  - exfalso. rewrite quote_chars_cons in H. cbn [quote_chars append] in H.
    rewrite append_assoc_string in H. exact (escape_not_quote _ _ _ H).
  - rewrite !quote_chars_cons, !append_assoc_string in H.
    apply (f_equal unescape) in H. rewrite !unescape_escape in H.
    injection H as -> H. destruct (IH _ _ _ H) as [-> ->]. split; reflexivity.
Qed.

Lemma quoted_is_delimited x y u v :
  QuoteJSONString x ++ u = QuoteJSONString y ++ v -> x = y /\ u = v.
Proof.
  unfold QuoteJSONString, dquote. rewrite ?append_assoc_string.
  cbn [append]. intros H. injection H as H.
  rewrite ?append_assoc_string in H. cbn [append] in H.
  exact (quote_chars_delimited _ _ _ _ H).
Qed.

Lemma bool_text_delimited (b b' : bool) (u v : string) :
  (if b then "true" else "false") ++ u
  = (if b' then "true" else "false") ++ v ->
  b = b' /\ u = v.
Proof.
  destruct b, b'; cbn; intros H; try discriminate H;
    (split; [ reflexivity | ]); repeat injection H as H; exact H.
Qed.

Lemma toUtf8Bytes_injective (s t : string) :
  toUtf8Bytes s = toUtf8Bytes t -> s = t.
Proof.
  unfold toUtf8Bytes. intros H.
  rewrite <- (string_of_list_byte_of_string s),
          <- (string_of_list_byte_of_string t), H.
  reflexivity.
Qed.

Section Texts.

Variables va va' : jsval.
Variables ts ts' : number.

Lemma order_text_determines_the_order p p' limitPx limitPx' :
  message_text va (order_action (order_of p limitPx)) ts
  = message_text va' (order_action (order_of p' limitPx')) ts' ->
  order_of p limitPx = order_of p' limitPx'.
Proof.
  intros H.
  unfold message_text, signed_message, order_action, order_of in H.
  cbn [JSON_stringify SerializeJSONProperty String.concat] in H.
  rewrite ?append_assoc_string in H.
  repeat apply append_cancel_l in H.
  apply bool_text_delimited in H. destruct H as [B H].
  repeat apply append_cancel_l in H.
  apply quoted_is_delimited in H. destruct H as [P H].
  repeat apply append_cancel_l in H.
  apply quoted_is_delimited in H. destruct H as [S H].
  repeat apply append_cancel_l in H.
  apply bool_text_delimited in H. destruct H as [R H].
  repeat apply append_cancel_l in H.
  apply quoted_is_delimited in H. destruct H as [T H].
  repeat apply append_cancel_l in H.
  apply quoted_is_delimited in H. destruct H as [A H].
  unfold order_of. rewrite B, P, S, R, A.
  assert (T' : (orderType p =? "market")%string
               = (orderType p' =? "market")%string).
  { destruct (orderType p =? "market")%string,
             (orderType p' =? "market")%string;
      try reflexivity; discriminate T. }
  rewrite T'. reflexivity.
Qed.

Lemma cancelAll_text_determines_the_asset p p' :
  message_text va (cancelAll_action p) ts
  = message_text va' (cancelAll_action p') ts' ->
  asset p = asset p'.
Proof.
  intros H.
  unfold message_text, signed_message, cancelAll_action in H.
  cbn [JSON_stringify SerializeJSONProperty String.concat] in H.
  rewrite ?append_assoc_string in H.
  repeat apply append_cancel_l in H.
  apply quoted_is_delimited in H. destruct H as [A H]. exact A.
Qed.

Lemma type_text_tells_the_kinds_apart order p p' :
  message_text va (order_action order) ts
  <> message_text va' (cancelAll_action p) ts'
  /\ message_text va (order_action order) ts
     <> message_text va' (cancel_action p) ts'
  /\ message_text va (cancel_action p) ts
     <> message_text va' (cancelAll_action p') ts'.
Proof.
  repeat split; intros H;
    unfold message_text, signed_message, order_action, cancelAll_action,
           cancel_action in H;
    cbn [JSON_stringify SerializeJSONProperty String.concat] in H;
    rewrite ?append_assoc_string in H;
    repeat apply append_cancel_l in H;
    apply quoted_is_delimited in H; destruct H as [T _]; discriminate T.
Qed.

End Texts.

(** X18. [cancelOrder] reads the order id with [parseInt], which stops
    at the first character that is neither a digit nor a letter: when
    the order id reads as a number, anything appended to it that starts
    with such a character (a fraction, a blank, a unit, a comment) is
    dropped, and the cancellation is, request for request, the one of
    the order id without the tail. *)
Theorem order_id_tail_is_ignored :
  forall (E : Ethers) (env : Env) (baseUrl key : string) (va address : jsval)
         (p p' : Params) (u : string) (v : bool * Z),
    parseInt_math (orderId p) 0 = Some v ->
    no_digit_ahead u ->
    orderId p' = orderId p ++ u ->
    coin p' = coin p ->
    parseInt (orderId p') 0 = parseInt (orderId p) 0
    /\ run_operation env "cancelOrder" baseUrl key va address p'
       = run_operation env "cancelOrder" baseUrl key va address p.
Proof.
  intros E env baseUrl key va address p p' u v P U O C.
  assert (I : parseInt (orderId p') 0 = parseInt (orderId p) 0).
  { unfold parseInt. rewrite O, (parseInt_math_app _ _ _ P U), P.
    reflexivity. }
  split; [ exact I | ].
  change (run_operation env "cancelOrder" baseUrl key va address p')
    with (cancelOrder env baseUrl key va p').
  change (run_operation env "cancelOrder" baseUrl key va address p)
    with (cancelOrder env baseUrl key va p).
  unfold cancelOrder, cancel_action. rewrite I, C. reflexivity.
Qed.

Lemma order_id_tail_is_ignored_witness :
  parseInt "42.9 (stale)" 0 = parseInt "42" 0
  /\ run_operation (E := Fixture.ethers) (Fixture.api false) "cancelOrder"
       "u" "k" JUndefined JNull
       (Fixture.with_orderId "42.9 (stale)" Fixture.params)
     = run_operation (E := Fixture.ethers) (Fixture.api false) "cancelOrder"
         "u" "k" JUndefined JNull Fixture.params.
Proof.
  apply (order_id_tail_is_ignored Fixture.ethers (Fixture.api false)
           "u" "k" JUndefined JNull Fixture.params
           (Fixture.with_orderId "42.9 (stale)" Fixture.params)
           ".9 (stale)" (false, 42)); reflexivity.
Defined.

(** X19. The bytes given to [keccak256] tell the action that was
    signed: two order messages with the same bytes carry the same order
    (asset, side, price, size, reduce-only flag and time in force), two
    cancel-all messages with the same bytes name the same asset, and
    the bytes of an order, of a cancellation and of a cancel-all message
    are never the same, whatever the vault address and the nonce. *)
Theorem signed_bytes_determine_the_action :
  forall (va va' : jsval) (ts ts' : number),
    (forall p p' limitPx limitPx',
        toUtf8Bytes (message_text va (order_action (order_of p limitPx)) ts)
        = toUtf8Bytes
            (message_text va' (order_action (order_of p' limitPx')) ts') ->
        order_action (order_of p limitPx)
        = order_action (order_of p' limitPx'))
    /\ (forall p p',
           toUtf8Bytes (message_text va (cancelAll_action p) ts)
           = toUtf8Bytes (message_text va' (cancelAll_action p') ts') ->
           cancelAll_action p = cancelAll_action p')
    /\ (forall order p p',
           toUtf8Bytes (message_text va (order_action order) ts)
           <> toUtf8Bytes (message_text va' (cancelAll_action p) ts')
           /\ toUtf8Bytes (message_text va (order_action order) ts)
              <> toUtf8Bytes (message_text va' (cancel_action p) ts')
           /\ toUtf8Bytes (message_text va (cancel_action p) ts)
              <> toUtf8Bytes (message_text va' (cancelAll_action p') ts')).
Proof.
  intros va va' ts ts'. split; [ | split ].
  - intros p p' limitPx limitPx' H. apply toUtf8Bytes_injective in H.
    rewrite (order_text_determines_the_order _ _ _ _ _ _ _ _ H).
    reflexivity.
  - intros p p' H. apply toUtf8Bytes_injective in H.
    unfold cancelAll_action.
    rewrite (cancelAll_text_determines_the_asset _ _ _ _ _ _ H).
    reflexivity.
  - intros order p p'.
    destruct (type_text_tells_the_kinds_apart va va' ts ts' order p p')
      as (A & B & C).
    repeat split; intros H; apply toUtf8Bytes_injective in H; tauto.
Qed.

Lemma signed_bytes_determine_the_action_witness :
  order_action (order_of Fixture.params "105")
  = order_action (order_of Samples.cancel_a "105")
  /\ toUtf8Bytes
       (message_text JUndefined (order_action (order_of Fixture.params "105"))
          (of_Z 7))
     <> toUtf8Bytes
          (message_text JUndefined (cancelAll_action Fixture.params)
             (of_Z 7)).
Proof.
  destruct (signed_bytes_determine_the_action JUndefined JUndefined
              (of_Z 7) (of_Z 7)) as (O & _ & K).
  split.
  - apply O. reflexivity.
  - apply (K (order_of Fixture.params "105") Fixture.params Fixture.params).
Defined.
